(** * The environment registry of [jumanji/registration.py]

    A shallow embedding of the identifier grammar ([ENV_NAME_RE],
    [parse_env_id], [get_env_id]) and of the registry operations
    ([register], [make], [registered_environments]) together with the
    properties stated for them.

    Modelling conventions.
    - A Python [str] is a [string]; a character is a code point below 256.
      The classes [\w] and [\d] are the ones CPython's [re] uses for [str]
      patterns, restricted to those code points.
    - A Python [int] is a [Z]; [str] and [int] on it are decimal printing
      and reading, refused beyond the interpreter's limit of 4300 digits.
    - A Python [dict] is an association list in insertion order whose keys
      are pairwise different.
    - Raising is returning [Raise e]; a function that reads or writes the
      module state threads a [state] through. *)

From Stdlib Require Import ZArith NArith Ascii String List.
From Stdlib Require Import DecimalString DecimalFacts DecimalPos DecimalZ.
From stdpp Require Import base option list strings gmap.

Local Open Scope Z_scope.

(** ** Exceptions and results *)

Record exn := Exception { exn_class : string; exn_msg : string }.

Definition ValueError (msg : string) : exn := Exception "ValueError" msg.
Definition TypeError (msg : string) : exn := Exception "TypeError" msg.
Definition AttributeError (msg : string) : exn := Exception "AttributeError" msg.

Inductive result (A : Type) : Type :=
| Ok (a : A)
| Raise (e : exn).
Arguments Ok {A} a.
Arguments Raise {A} e.

(** ** Characters and strings *)

Definition code (c : ascii) : N := N_of_ascii c.

Definition between (lo hi : N) (c : ascii) : bool :=
  ((lo <=? code c) && (code c <=? hi))%N.

(** [\d]: the decimal digits; below 256 these are [0-9] only. *)
Definition category_digit (c : ascii) : bool := between 48 57 c.

(** [\w]: what [str.isalnum] accepts, and the underscore.  Below 128 this is
    [[A-Za-z0-9_]]; from 128 to 255 it is the Latin-1 letters, the
    superscript digits and the vulgar fractions. *)
Definition category_word (c : ascii) : bool :=
  between 48 57 c || between 65 90 c || between 97 122 c || (code c =? 95)%N
  || (code c =? 170)%N || between 178 179 c || (code c =? 181)%N
  || between 185 186 c || between 188 190 c
  || between 192 214 c || between 216 246 c || between 248 255 c.

Fixpoint forall_chars (p : ascii -> bool) (s : string) : bool :=
  match s with
  | EmptyString => true
  | String c s' => p c && forall_chars p s'
  end.

(** [sys.get_int_max_str_digits()], as the interpreter starts with it. *)
Definition int_max_str_digits : nat := 4300.

(** The decimal numeral of an integer, with its sign. *)
Definition decimal (n : Z) : string := NilEmpty.string_of_int (Z.to_int n).

(** The number of digits of that numeral, the sign not counted. *)
Definition digit_count (n : Z) : nat := String.length (decimal (Z.abs n)).

(** The decimal numeral of a length. *)
Definition nat_text (n : nat) : string := NilEmpty.string_of_uint (Nat.to_uint n).

(** [str(n)] for an integer, which is also what an f-string puts for it:
    numbers of more than [int_max_str_digits] digits are refused. *)
Definition str (n : Z) : result string :=
  if (int_max_str_digits <? digit_count n)%nat
  then Raise (ValueError
                ("Exceeds the limit (4300 digits) for integer string conversion; "
                 +:+ "use sys.set_int_max_str_digits() to increase the limit"))
  else Ok (decimal n).

Fixpoint int_acc (s : string) (acc : Z) : Z :=
  match s with
  | EmptyString => acc
  | String c s' => int_acc s' (10 * acc + (Z.of_N (code c) - 48))
  end.

(** The number a string of decimal digits stands for. *)
Definition decimal_value (s : string) : Z := int_acc s 0.

(** [int(s)] for a string of decimal digits: strings of more than
    [int_max_str_digits] digits, leading zeros counted, are refused. *)
Definition int (s : string) : result Z :=
  if (int_max_str_digits <? String.length s)%nat
  then Raise (ValueError
                ("Exceeds the limit (4300 digits) for integer string conversion: "
                 +:+ "value has " +:+ nat_text (String.length s) +:+ " digits; "
                 +:+ "use sys.set_int_max_str_digits() to increase the limit"))
  else Ok (decimal_value s).

(** ** Regular expressions

    The fragment of [re] that [ENV_NAME_RE] is written in, with the
    backtracking order of the [re] engine: alternatives are tried in
    priority order and the first complete match wins. *)

Inductive set_item :=
| CategoryWord                 (* \w *)
| CategoryDigit                (* \d *)
| Lit (c : ascii).             (* a literal character *)

Definition item_matches (i : set_item) (c : ascii) : bool :=
  match i with
  | CategoryWord => category_word c
  | CategoryDigit => category_digit c
  | Lit c' => Ascii.eqb c' c
  end.

Definition set_matches (items : list set_item) (c : ascii) : bool :=
  existsb (fun i => item_matches i c) items.

Inductive regex :=
| AtBeginning                               (* ^ *)
| AtEnd                                     (* $ *)
| Literal (c : ascii)                       (* c *)
| MinRepeat1 (items : list set_item)        (* [items]+? *)
| MaxRepeat1 (items : list set_item)        (* [items]+ *)
| Optional (r : regex)                      (* (?:r)? *)
| Named (g : string) (r : regex)            (* (?P<g>r) *)
| Seq (r1 r2 : regex).                      (* r1 r2 *)

(** The groups that took part in a match, most recent first. *)
Definition captures := list (string * string).
Definition cont := string -> captures -> option captures.

(** The text between two positions given by what is left of the subject. *)
Definition taken (from to : string) : string :=
  substring 0 (String.length from - String.length to) from.

Fixpoint min_repeat1 (items : list set_item) (k : cont) (caps : captures)
    (rest : string) : option captures :=
  match rest with
  | EmptyString => None
  | String c rest' =>
      if set_matches items c then
        match k rest' caps with
        | Some m => Some m
        | None => min_repeat1 items k caps rest'
        end
      else None
  end.

Fixpoint max_repeat1 (items : list set_item) (k : cont) (caps : captures)
    (rest : string) : option captures :=
  match rest with
  | EmptyString => None
  | String c rest' =>
      if set_matches items c then
        match max_repeat1 items k caps rest' with
        | Some m => Some m
        | None => k rest' caps
        end
      else None
  end.

Definition newline : string := String (ascii_of_nat 10) EmptyString.

Fixpoint run (subject : string) (r : regex) (rest : string) (caps : captures)
    (k : cont) : option captures :=
  match r with
  | AtBeginning =>
      if (String.length rest =? String.length subject)%nat then k rest caps else None
  | AtEnd =>
      if String.eqb rest EmptyString || String.eqb rest newline
      then k rest caps else None
  | Literal c =>
      match rest with
      | String c' rest' => if Ascii.eqb c c' then k rest' caps else None
      | EmptyString => None
      end
  | MinRepeat1 items => min_repeat1 items k caps rest
  | MaxRepeat1 items => max_repeat1 items k caps rest
  | Optional r' =>
      match run subject r' rest caps k with
      | Some m => Some m
      | None => k rest caps
      end
  | Named g r' =>
      run subject r' rest caps (fun rest' caps' => k rest' ((g, taken rest rest') :: caps'))
  | Seq r1 r2 =>
      run subject r1 rest caps (fun rest' caps' => run subject r2 rest' caps' k)
  end.

(** [pattern.fullmatch(subject)]: the match has to reach the end. *)
Definition fullmatch (r : regex) (subject : string) : option captures :=
  run subject r subject []
    (fun rest caps => if String.eqb rest EmptyString then Some caps else None).

(** [match.group(g)]: [None] when the group took no part in the match. *)
Fixpoint group (m : captures) (g : string) : option string :=
  match m with
  | [] => None
  | (g', text) :: m' => if String.eqb g g' then Some text else group m' g
  end.

(** ** The identifier grammar *)

(** [[\w:.-]] *)
Definition name_set : list set_item := [CategoryWord; Lit ":"; Lit "."; Lit "-"].

(** [r"^(?:(?P<name>[\w:.-]+?))(?:-v(?P<version>\d+))?$"] *)
Definition ENV_NAME_RE : regex :=
  Seq AtBeginning
    (Seq (Named "name" (MinRepeat1 name_set))
       (Seq (Optional (Seq (Literal "-") (Seq (Literal "v")
                        (Named "version" (MaxRepeat1 [CategoryDigit])))))
          AtEnd)).

Definition MalformedIdentifier (id : string) : exn :=
  ValueError ("Malformed environment name: " +:+ id +:+ "."
              +:+ "All ID's must be of the form (env-name)[-v(version-number)].").

(** The group [name] takes part in every match of [ENV_NAME_RE], so the
    default below is never used; [version] is [None] when the optional
    group did not take part. *)
Definition parse_env_id (id : string) : result (string * Z) :=
  match fullmatch ENV_NAME_RE id with
  | None => Raise (MalformedIdentifier id)
  | Some m =>
      let name := default EmptyString (group m "name") in
      let version := group m "version" in
      match version with
      | Some d =>
          match int d with
          | Ok version => Ok (name, version)
          | Raise e => Raise e
          end
      | None => Ok (name, 0)
      end
  end.

(** [version or 0] *)
Definition or_zero (version : option Z) : Z :=
  match version with
  | Some v => if v =? 0 then 0 else v
  | None => 0
  end.

Definition get_env_id (name : string) (version : option Z) : result string :=
  let version := or_zero version in
  match str version with
  | Ok text =>
      let full_name := name +:+ ("-v" +:+ text) in
      Ok full_name
  | Raise e => Raise e
  end.

(** ** Python values, dictionaries and the heap *)

Definition loc := nat.

(** The values the model passes around as arguments: [None], integers,
    strings and references to dictionaries living in the heap. *)
Inductive pyobj :=
| PyNone
| PyInt (n : Z)
| PyStr (s : string)
| PyRef (l : loc).

(** A [dict] with [str] keys, in insertion order. *)
Abbreviation dict V := (list (string * V)).

Fixpoint dict_get {V} (d : dict V) (k : string) : option V :=
  match d with
  | [] => None
  | (k', v) :: d' => if String.eqb k k' then Some v else dict_get d' k
  end.

(** [k in d] *)
Definition dict_contains {V} (d : dict V) (k : string) : bool :=
  match dict_get d k with Some _ => true | None => false end.

(** [d[k] = v]: an existing key keeps its place, a new one goes last. *)
Fixpoint dict_set {V} (d : dict V) (k : string) (v : V) : dict V :=
  match d with
  | [] => [(k, v)]
  | (k', v') :: d' =>
      if String.eqb k k' then (k', v) :: d' else (k', v') :: dict_set d' k v
  end.

Definition dict_keys {V} (d : dict V) : list string := map fst d.
Definition dict_values {V} (d : dict V) : list V := map snd d.

(** [d.update(other)] *)
Definition dict_update {V} (d other : dict V) : dict V :=
  fold_left (fun acc kv => dict_set acc (fst kv) (snd kv)) other d.

(** ** The record of one registration *)

Module EnvSpec.
Record t := Build {
  id : string;
  entry_point : string;
  kwargs : pyobj;
  name : string;
  version : Z
}.
End EnvSpec.

(** ** The state of the module and of the objects it refers to *)

Record state := State {
  _REGISTRY : dict EnvSpec.t;
  heap : gmap loc (dict pyobj)
}.

Definition M (A : Type) : Type := state -> result A * state.

Definition ret {A} (a : A) : M A := fun s => (Ok a, s).
Definition raise {A} (e : exn) : M A := fun s => (Raise e, s).
Definition lift {A} (r : result A) : M A := fun s => (r, s).
Definition bind {A B} (m : M A) (f : A -> M B) : M B :=
  fun s =>
    match m s with
    | (Ok a, s') => f a s'
    | (Raise e, s') => (Raise e, s')
    end.

Declare Scope py_scope.
Delimit Scope py_scope with py.
Notation "x <- m ;; f" := (bind m (fun x => f))
  (at level 100, m at next level, right associativity) : py_scope.
Notation "m ;; f" := (bind m (fun _ => f))
  (at level 100, right associativity) : py_scope.
Local Open Scope py_scope.

Definition get_registry : M (dict EnvSpec.t) := fun s => (Ok (_REGISTRY s), s).

(** [_REGISTRY[k] = spec] *)
Definition registry_setitem (k : string) (spec : EnvSpec.t) : M unit :=
  fun s => (Ok tt, State (dict_set (_REGISTRY s) k spec) (heap s)).

(** A new dictionary object with the given items. *)
Definition alloc (d : dict pyobj) : M loc :=
  fun s =>
    let l := fresh (dom (heap s)) in
    (Ok l, State (_REGISTRY s) (<[l := d]> (heap s))).

(** The items of the dictionary object at [l].  Every reference a Python
    program holds is to a live object; the other branch is there to make
    the function total. *)
Definition deref (l : loc) : M (dict pyobj) :=
  fun s =>
    match heap s !! l with
    | Some d => (Ok d, s)
    | None => (Raise (Exception "SystemError" "dangling reference"), s)
    end.

Definition store (l : loc) (d : dict pyobj) : M unit :=
  fun s => (Ok tt, State (_REGISTRY s) (<[l := d]> (heap s))).

Definition type_name (o : pyobj) : string :=
  match o with
  | PyNone => "NoneType"
  | PyInt _ => "int"
  | PyStr _ => "str"
  | PyRef _ => "dict"
  end.

(** [o.copy()] *)
Definition copy (o : pyobj) : M loc :=
  match o with
  | PyRef l => d <- deref l ;; alloc d
  | _ => raise (AttributeError
                  ("'" +:+ type_name o +:+ "' object has no attribute 'copy'"))
  end.

(** [l.update(other)] on the dictionary object at [l]. *)
Definition update (l : loc) (other : dict pyobj) : M unit :=
  d <- deref l ;; store l (dict_update d other).

(** ** Building a record

    [EnvSpec(id=id, entry_point=entry_point, **kwargs)]: the keywords are
    bound to the fields that [__init__] accepts, [id], [entry_point] and
    [kwargs]; [name] and [version] are declared [init=False]. *)

Definition is_positional_field (k : string) : bool :=
  String.eqb k "id" || String.eqb k "entry_point".

(** The generated [__init__] followed by [__post_init__]. *)
Definition EnvSpec_init (id entry_point : string) (kwargs : option pyobj)
    : M EnvSpec.t :=
  kwargs <- match kwargs with
            | Some o => ret o
            | None => l <- alloc [] ;; ret (PyRef l)   (* default_factory=dict *)
            end ;;
  parsed <- lift (parse_env_id id) ;;
  let '(name, version) := parsed in
  ret (EnvSpec.Build id entry_point kwargs name version).

Definition EnvSpec_call (id entry_point : string) (kwargs : dict pyobj)
    : M EnvSpec.t :=
  match List.find is_positional_field (dict_keys kwargs) with
  | Some k =>
      raise (TypeError ("jumanji.registration.EnvSpec() got multiple values "
                        +:+ "for keyword argument '" +:+ k +:+ "'"))
  | None =>
      match List.find (fun k => negb (String.eqb k "kwargs")) (dict_keys kwargs) with
      | Some k =>
          raise (TypeError ("EnvSpec.__init__() got an unexpected keyword "
                            +:+ "argument '" +:+ k +:+ "'"))
      | None => EnvSpec_init id entry_point (dict_get kwargs "kwargs")
      end
  end.

(** ** Registration *)

Definition DuplicateRegistration (id : string) : exn :=
  ValueError ("Trying to override the registered environment " +:+ id +:+ ".").

(** The exception of the version check, [got] being the text the f-string
    puts for the version. *)
Definition version_gap_error (got : string) : exn :=
  ValueError ("The first version of an unregistered environment must be 0, got "
              +:+ got).

(** That exception for a version within the limit of [str]. *)
Definition VersionGapError (version : Z) : exn :=
  version_gap_error (decimal version).

(** [max(xs, default=None)] *)
Definition max_default (xs : list Z) : option Z :=
  match xs with
  | [] => None
  | x :: xs' => Some (fold_left Z.max xs' x)
  end.

Definition _check_registration_is_allowed (spec : EnvSpec.t) : M unit :=
  registry <- get_registry ;;
  if dict_contains registry (EnvSpec.id spec)
  then raise (DuplicateRegistration (EnvSpec.id spec))
  else
    let latest_version :=
      max_default
        (map EnvSpec.version
           (filter (fun _spec => EnvSpec.name _spec = EnvSpec.name spec)
              (dict_values registry))) in
    match latest_version with
    | None =>
        if negb (EnvSpec.version spec =? 0)
        then got <- lift (str (EnvSpec.version spec)) ;;
             raise (version_gap_error got)
        else ret tt
    | Some _ => ret tt
    end.

Definition register (id entry_point : string) (kwargs : dict pyobj) : M unit :=
  parsed <- lift (parse_env_id id) ;;
  let '(env_name, version) := parsed in
  env_id <- lift (get_env_id env_name (Some version)) ;;
  spec <- EnvSpec_call env_id entry_point kwargs ;;
  _check_registration_is_allowed spec ;;
  registry_setitem env_id spec.

(** [s.split(sep)] for a separator of one character. *)
Fixpoint split (sep : ascii) (s : string) : list string :=
  match s with
  | EmptyString => [EmptyString]
  | String c s' =>
      if Ascii.eqb c sep then EmptyString :: split sep s'
      else match split sep s' with
           | h :: t => String c h :: t
           | [] => [String c EmptyString]
           end
  end.

Definition UnregisteredEnvironment (env_id : string) (registry : list string) : exn :=
  let registered_envs := String.concat newline (map (fun name => "- " +:+ name) registry) in
  ValueError ("Unregistered environment " +:+ env_id +:+ ". "
              +:+ "Please select from the registered environments: " +:+ newline
              +:+ registered_envs +:+ ".").

Section resolver.

(** What [make] hands back, and the module system it resolves entry points
    with: [import_attr m a] is [getattr(importlib.import_module(m), a)].
    Both are collaborators of the registry; they are taken not to touch
    the registry or the dictionaries it refers to. *)
Variable Environment : Type.
Definition constructor := list pyobj -> dict pyobj -> result Environment.
Variable import_attr : string -> string -> result constructor.

Definition load (name : string) : result constructor :=
  match split ":" name with
  | [mod_name; attr_name] => import_attr mod_name attr_name
  | [_] => Raise (ValueError "not enough values to unpack (expected 2, got 1)")
  | _ => Raise (ValueError "too many values to unpack (expected 2)")
  end.

Definition make (id : string) (args : list pyobj) (kwargs : dict pyobj)
    : M Environment :=
  parsed <- lift (parse_env_id id) ;;
  let '(env_name, version) := parsed in
  env_id <- lift (get_env_id env_name (Some version)) ;;
  registry <- get_registry ;;
  if negb (dict_contains registry env_id)
  then raise (UnregisteredEnvironment env_id (dict_keys registry))
  else
    env_spec <- match dict_get registry env_id with
                | Some spec => ret spec
                | None => raise (Exception "KeyError" env_id)
                end ;;
    env_fn_kwargs <- copy (EnvSpec.kwargs env_spec) ;;
    update env_fn_kwargs kwargs ;;
    env_fn <- lift (load (EnvSpec.entry_point env_spec)) ;;
    call_kwargs <- deref env_fn_kwargs ;;
    lift (env_fn args call_kwargs).

End resolver.

Definition registered_environments : M (list string) :=
  registry <- get_registry ;;
  ret (dict_keys registry).

(** The state a fresh interpreter starts the module with. *)
Definition initial_state : state := State [] ∅.

(** ** Vocabulary of the statements *)

(** The characters of [[\w:.-]]. *)
Definition is_name_char (c : ascii) : bool := set_matches name_set c.

(** A string "containing only grammar-legal characters". *)
Definition legal (s : string) : bool := forall_chars is_name_char s.

Definition nonempty (s : string) : bool := negb (String.eqb s EmptyString).

(** A non-empty run of decimal digits. *)
Definition is_digits (d : string) : bool :=
  nonempty d && forall_chars category_digit d.

(** What is left of the subject is exactly ["-v"] and digits: the digits. *)
Definition version_suffix (rest : string) : option string :=
  match rest with
  | String c1 (String c2 d) =>
      if Ascii.eqb "-" c1 && Ascii.eqb "v" c2 && is_digits d then Some d else None
  | _ => None
  end.

(** The part of [ENV_NAME_RE] behind the name group, as a function of what
    is left of the subject. *)
Definition tail_match (rest : string) (caps : captures) : option captures :=
  match version_suffix rest with
  | Some d => Some (("version"%string, d) :: caps)
  | None => if String.eqb rest EmptyString then Some caps else None
  end.

(** [sub] occurs in [s]. *)
Definition occurs_in (sub s : string) : Prop :=
  exists before after, s = before +:+ sub +:+ after.

(** The value of a decimal numeral read from the left, for the proofs
    about [str] and [int]. *)
Fixpoint uint_value (u : Decimal.uint) (acc : N) : N :=
  match u with
  | Decimal.Nil => acc
  | Decimal.D0 u => uint_value u (10 * acc)
  | Decimal.D1 u => uint_value u (10 * acc + 1)
  | Decimal.D2 u => uint_value u (10 * acc + 2)
  | Decimal.D3 u => uint_value u (10 * acc + 3)
  | Decimal.D4 u => uint_value u (10 * acc + 4)
  | Decimal.D5 u => uint_value u (10 * acc + 5)
  | Decimal.D6 u => uint_value u (10 * acc + 6)
  | Decimal.D7 u => uint_value u (10 * acc + 7)
  | Decimal.D8 u => uint_value u (10 * acc + 8)
  | Decimal.D9 u => uint_value u (10 * acc + 9)
  end%N.

(** The lazy repetition of the name group, in front of the tail of the
    pattern; [pre] is the part of the subject already given to the name. *)
Definition name_loop (pre s : string) (caps : captures) : option captures :=
  min_repeat1 name_set
    (fun rest caps => tail_match rest (("name"%string, taken (pre +:+ s) rest) :: caps))
    caps s.

(** Some non-empty prefix of [s] is followed by exactly ["-v"] and digits. *)
Fixpoint versioned (s : string) : bool :=
  match s with
  | EmptyString => false
  | String _ s' =>
      match version_suffix s' with
      | Some _ => true
      | None => versioned s'
      end
  end.

(** The identifier printed from a name and a version, as a text. *)
Definition env_key (n : string) (v : Z) : string := n +:+ ("-v" +:+ decimal v).

(** ** Vocabulary of the statements about the registry *)

(** [m] raises [e] when run in [s]. *)
Definition raises {A} (m : M A) (s : state) (e : exn) : Prop :=
  exists s', m s = (Raise e, s').

(** The keywords of a call [register(id, entry_point, kwargs=...)] or
    [register(id, entry_point)]: no keyword other than [kwargs]. *)
Definition accepted (kwargs : dict pyobj) : bool :=
  forallb (fun k => String.eqb k "kwargs") (dict_keys kwargs).

(** The canonical identifier [register] and [make] compute from [id]. *)
Definition canonical (id : string) : option string :=
  match parse_env_id id with
  | Ok (env_name, version) =>
      match get_env_id env_name (Some version) with
      | Ok env_id => Some env_id
      | Raise _ => None
      end
  | Raise _ => None
  end.

(** No record of the registry carries the name [n]. *)
Definition unnamed (registry : dict EnvSpec.t) (n : string) : Prop :=
  Forall (fun kv => EnvSpec.name (snd kv) <> n) registry.

(** The shape of a registry that [register] has built: one record per key,
    stored under its own [id], with [name] and [version] read off that
    [id]. *)
Record registry_ok (registry : dict EnvSpec.t) : Prop := {
  ok_keys : NoDup (dict_keys registry);
  ok_records :
    Forall (fun kv =>
              EnvSpec.id (snd kv) = fst kv /\
              parse_env_id (fst kv) =
                Ok (EnvSpec.name (snd kv), EnvSpec.version (snd kv)))
      registry
}.

(** State [s'] has every object of [s], unchanged, and the same registry. *)
Definition extends (s s' : state) : Prop :=
  _REGISTRY s' = _REGISTRY s /\ heap s ⊆ heap s'.

(** The object a record keeps as its [kwargs]: the one passed in, or a new
    empty dictionary. *)
Definition stored_kwargs (given : option pyobj) (s : state) (o : pyobj)
    (h' : gmap loc (dict pyobj)) : Prop :=
  match given with
  | Some x => o = x /\ h' = heap s
  | None =>
      exists l, o = PyRef l /\ heap s !! l = None /\ h' = <[l := []]> (heap s)
  end.

#[global] Instance unnamed_dec registry n : Decision (unnamed registry n).
Proof. unfold unnamed. apply _. Defined.

Section calls.

Variable Environment : Type.
Variable import_attr : string -> string -> result (constructor Environment).

(** What [make] does once it holds the record. *)
Definition construct (env_spec : EnvSpec.t) (args : list pyobj)
    (kwargs : dict pyobj) : M Environment :=
  env_fn_kwargs <- copy (EnvSpec.kwargs env_spec) ;;
  update env_fn_kwargs kwargs ;;
  env_fn <- lift (load Environment import_attr (EnvSpec.entry_point env_spec)) ;;
  call_kwargs <- deref env_fn_kwargs ;;
  lift (env_fn args call_kwargs).

(** A call of one of the three public functions. *)
Inductive call :=
| CallRegister (id entry_point : string) (kwargs : dict pyobj)
| CallMake (id : string) (args : list pyobj) (kwargs : dict pyobj)
| CallRegisteredEnvironments.

Definition after (c : call) (s : state) : state :=
  match c with
  | CallRegister id entry_point kwargs => snd (register id entry_point kwargs s)
  | CallMake id args kwargs => snd (make Environment import_attr id args kwargs s)
  | CallRegisteredEnvironments => snd (registered_environments s)
  end.

Fixpoint after_all (cs : list call) (s : state) : state :=
  match cs with
  | [] => s
  | c :: cs' => after_all cs' (after c s)
  end.

(** The canonical identifier a call registered, if it did. *)
Definition registered_by (c : call) (s : state) : list string :=
  match c with
  | CallRegister id entry_point kwargs =>
      match fst (register id entry_point kwargs s), canonical id with
      | Ok _, Some env_id => [env_id]
      | _, _ => []
      end
  | _ => []
  end.

(** The identifiers registered by a run of calls, in the order of the
    calls. *)
Fixpoint registered_by_all (cs : list call) (s : state) : list string :=
  match cs with
  | [] => []
  | c :: cs' => registered_by c s ++ registered_by_all cs' (after c s)
  end.

End calls.

(** A module system for the examples: one module, [envs], with one class,
    [CartPole], whose constructor hands back the arguments it was called
    with. *)
Definition example_import (mod_name attr_name : string)
    : result (constructor (list pyobj * dict pyobj)) :=
  if String.eqb mod_name "envs" && String.eqb attr_name "CartPole"
  then Ok (fun args kwargs => Ok (args, kwargs))
  else Raise (Exception "ModuleNotFoundError"
                ("No module named '" +:+ mod_name +:+ "'")).

(** A heap with one dictionary, [{"size": 4}], at address 0. *)
Definition example_heap : gmap loc (dict pyobj) :=
  {[ 0%nat := [("size"%string, PyInt 4)] ]}.

(** ** Vocabulary of the further properties *)

(** The number of occurrences of [c] in [s]. *)
Fixpoint count_char (c : ascii) (s : string) : nat :=
  match s with
  | EmptyString => 0%nat
  | String c' s' => ((if Ascii.eqb c' c then 1 else 0) + count_char c s')%nat
  end.

(** Every record sits under the identifier printed from its own name and
    version. *)
Definition keyed_by_name_and_version (registry : dict EnvSpec.t) : Prop :=
  Forall (fun kv =>
            get_env_id (EnvSpec.name (snd kv)) (Some (EnvSpec.version (snd kv)))
            = Ok (fst kv) /\
            EnvSpec.name (snd kv) <> EmptyString /\
            legal (EnvSpec.name (snd kv)) = true /\
            0 <= EnvSpec.version (snd kv))
    registry.

(** Every name of the registry has its version 0 registered. *)
Definition starts_at_zero (registry : dict EnvSpec.t) : Prop :=
  Forall (fun kv =>
            dict_contains registry (EnvSpec.name (snd kv) +:+ "-v0") = true)
    registry.

(** What a call of the constructor resolved from [entry_point] returns. *)
Definition instantiate (Environment : Type)
    (import_attr : string -> string -> result (constructor Environment))
    (entry_point : string) (args : list pyobj) (kwargs : dict pyobj)
    : result Environment :=
  match load Environment import_attr entry_point with
  | Ok env_fn => env_fn args kwargs
  | Raise e => Raise e
  end.
(** ** Facts about strings *)

Section string_facts.

Lemma append_cons (c : ascii) (a b : string) :
  String c a +:+ b = String c (a +:+ b).
Proof. reflexivity. Qed.

Lemma append_nil_l (b : string) : EmptyString +:+ b = b.
Proof. reflexivity. Qed.

Lemma length_append (a b : string) :
  String.length (a +:+ b) = (String.length a + String.length b)%nat.
Proof.
  induction a as [|c a IH]; [done|].
  rewrite append_cons. simpl. by rewrite IH.
Qed.

Lemma append_nil_r (a : string) : a +:+ EmptyString = a.
Proof.
  induction a as [|c a IH]; [done|]. by rewrite append_cons, IH.
Qed.

Lemma append_assoc (a b c : string) : (a +:+ b) +:+ c = a +:+ (b +:+ c).
Proof.
  induction a as [|x a IH]; [done|]. by rewrite !append_cons, IH.
Qed.

Lemma substring_prefix (p r : string) :
  substring 0 (String.length p) (p +:+ r) = p.
Proof.
  induction p as [|c p IH].
  - by destruct r.
  - rewrite append_cons. simpl. by rewrite IH.
Qed.

Lemma taken_app (p r : string) : taken (p +:+ r) r = p.
Proof.
  unfold taken. rewrite length_append.
  replace (String.length p + String.length r - String.length r)%nat
    with (String.length p) by lia.
  apply substring_prefix.
Qed.

Lemma taken_all (s : string) : taken s EmptyString = s.
Proof.
  rewrite <- (append_nil_r s) at 1. apply taken_app.
Qed.

Lemma append_snoc (p : string) (c : ascii) (s : string) :
  (p +:+ String c EmptyString) +:+ s = p +:+ String c s.
Proof. by rewrite append_assoc. Qed.

Lemma forall_chars_app (f : ascii -> bool) (a b : string) :
  forall_chars f (a +:+ b) = forall_chars f a && forall_chars f b.
Proof.
  induction a as [|c a IH]; [done|].
  rewrite append_cons. simpl. by rewrite IH, andb_assoc.
Qed.

Lemma forall_chars_impl (f g : ascii -> bool) (s : string) :
  (forall c, f c = true -> g c = true) ->
  forall_chars f s = true -> forall_chars g s = true.
Proof.
  intros Hfg. induction s as [|c s IH]; simpl; [done|].
  rewrite !andb_true_iff. intros [? ?]. auto.
Qed.

End string_facts.

(** Appending to a string that starts with literal characters. *)
Ltac norm_append := rewrite ?append_cons, ?append_nil_l.
Tactic Notation "norm_append" "in" hyp(H) := rewrite ?append_cons, ?append_nil_l in H.
Example parse_examples :
  parse_env_id "a-v1-v2" = Ok ("a-v1"%string, 2) /\
  parse_env_id "a-v007" = Ok ("a"%string, 7) /\
  parse_env_id "-v1" = Ok ("-v1"%string, 0) /\
  parse_env_id "a--v3" = Ok ("a-"%string, 3) /\
  parse_env_id "foo" = Ok ("foo"%string, 0) /\
  parse_env_id ("a" +:+ newline) = Raise (MalformedIdentifier ("a" +:+ newline)) /\
  get_env_id "foo" None = Ok "foo-v0"%string /\
  get_env_id "foo" (Some 12) = Ok "foo-v12"%string.
Proof. vm_compute. repeat split. Qed.


(** ** Decimal printing and reading *)

Section decimal.

Lemma int_acc_string_of_uint (u : Decimal.uint) (acc : N) :
  int_acc (NilEmpty.string_of_uint u) (Z.of_N acc) = Z.of_N (uint_value u acc).
Proof.
  revert acc. induction u; intros acc; simpl; [done|..];
    rewrite <- IHu; f_equal; unfold code; simpl; lia.
Qed.

Lemma uint_value_revapp (u d : Decimal.uint) :
  uint_value u (Unsigned.of_lu d) = Unsigned.of_lu (Decimal.revapp u d).
Proof.
  revert d. induction u; intros d; simpl; [done|..];
    rewrite <- IHu; f_equal; simpl; lia.
Qed.

Lemma uint_value_of_uint (u : Decimal.uint) : uint_value u 0 = Pos.of_uint u.
Proof.
  rewrite Unsigned.of_uint_alt. unfold Decimal.rev.
  apply (uint_value_revapp u Decimal.Nil).
Qed.

Lemma digits_string_of_uint (u : Decimal.uint) :
  forall_chars category_digit (NilEmpty.string_of_uint u) = true.
Proof. induction u; simpl; auto. Qed.

Lemma string_of_uint_nonempty (u : Decimal.uint) :
  u <> Decimal.Nil -> NilEmpty.string_of_uint u <> EmptyString.
Proof. by destruct u. Qed.

Lemma decimal_digits (v : Z) : 0 <= v -> is_digits (decimal v) = true.
Proof.
  intros Hv. unfold is_digits, decimal, nonempty.
  destruct v as [|p|p]; [done| |lia]. simpl.
  rewrite digits_string_of_uint, andb_true_r.
  apply negb_true_iff, String.eqb_neq, string_of_uint_nonempty,
    Unsigned.to_uint_nonnil.
Qed.

Lemma decimal_value_decimal (v : Z) : 0 <= v -> decimal_value (decimal v) = v.
Proof.
  intros Hv. unfold decimal_value, decimal.
  destruct v as [|p|p]; [done| |lia]. simpl.
  change 0 with (Z.of_N 0).
  by rewrite int_acc_string_of_uint, uint_value_of_uint, Unsigned.of_to.
Qed.

Lemma int_acc_nonneg (d : string) (acc : Z) :
  forall_chars category_digit d = true -> 0 <= acc -> 0 <= int_acc d acc.
Proof.
  revert acc. induction d as [|c d IH]; intros acc; simpl; [done|].
  rewrite andb_true_iff. intros [Hc Hd] Hacc. apply IH; [done|].
  unfold category_digit, between in Hc.
  apply andb_true_iff in Hc as [Hlo _]. apply N.leb_le in Hlo. lia.
Qed.

Lemma decimal_value_nonneg (d : string) : is_digits d = true -> 0 <= decimal_value d.
Proof.
  unfold is_digits. rewrite andb_true_iff. intros [_ Hd].
  by apply int_acc_nonneg.
Qed.

(** *** The limit on the number of digits *)

Lemma str_within (v : Z) :
  (digit_count v <= int_max_str_digits)%nat -> str v = Ok (decimal v).
Proof.
  intros Hv. unfold str.
  by destruct (Nat.ltb_spec int_max_str_digits (digit_count v)); [lia|].
Qed.

Lemma str_Ok (v : Z) (text : string) :
  str v = Ok text ->
  text = decimal v /\ (digit_count v <= int_max_str_digits)%nat.
Proof.
  unfold str.
  destruct (Nat.ltb_spec int_max_str_digits (digit_count v)); [done|].
  by intros [= <-].
Qed.

Lemma int_within (d : string) :
  (String.length d <= int_max_str_digits)%nat -> int d = Ok (decimal_value d).
Proof.
  intros Hd. unfold int.
  by destruct (Nat.ltb_spec int_max_str_digits (String.length d)); [lia|].
Qed.

Lemma int_Ok (d : string) (v : Z) :
  int d = Ok v ->
  v = decimal_value d /\ (String.length d <= int_max_str_digits)%nat.
Proof.
  unfold int.
  destruct (Nat.ltb_spec int_max_str_digits (String.length d)); [done|].
  by intros [= <-].
Qed.

Lemma int_Raise (d : string) (e : exn) :
  int d = Raise e -> (int_max_str_digits < String.length d)%nat.
Proof.
  unfold int.
  by destruct (Nat.ltb_spec int_max_str_digits (String.length d)).
Qed.

Lemma digits_of_uint (d : string) :
  forall_chars category_digit d = true ->
  exists u, NilEmpty.string_of_uint u = d.
Proof.
  induction d as [|c d IH]; [by exists Decimal.Nil|].
  simpl. rewrite andb_true_iff. intros [Hc [u <-]%IH].
  destruct c as [[] [] [] [] [] [] [] []]; try discriminate Hc;
    first [ by exists (Decimal.D0 u) | by exists (Decimal.D1 u)
          | by exists (Decimal.D2 u) | by exists (Decimal.D3 u)
          | by exists (Decimal.D4 u) | by exists (Decimal.D5 u)
          | by exists (Decimal.D6 u) | by exists (Decimal.D7 u)
          | by exists (Decimal.D8 u) | by exists (Decimal.D9 u) ].
Qed.

Lemma length_string_of_uint (u : Decimal.uint) :
  String.length (NilEmpty.string_of_uint u) = Decimal.nb_digits u.
Proof. induction u; simpl; congruence. Qed.

Lemma to_int_of_N (x : N) : Z.to_int (Z.of_N x) = Decimal.Pos (N.to_uint x).
Proof. by destruct x. Qed.

(** Reading digits and printing the number gives no more digits than were
    read: the leading zeros go. *)
Lemma digit_count_decimal_value (d : string) :
  is_digits d = true -> (digit_count (decimal_value d) <= String.length d)%nat.
Proof.
  intros Hd. pose proof (decimal_value_nonneg d Hd) as Hv.
  unfold is_digits in Hd. apply andb_true_iff in Hd as [Hne Hd].
  destruct (digits_of_uint d Hd) as [u <-].
  assert (Hu : u <> Decimal.Nil).
  { intros ->. by apply negb_true_iff, String.eqb_neq in Hne. }
  unfold digit_count. rewrite Z.abs_eq by done.
  unfold decimal_value, decimal. change 0 with (Z.of_N 0).
  rewrite int_acc_string_of_uint, uint_value_of_uint, to_int_of_N.
  simpl. rewrite Unsigned.to_of, !length_string_of_uint.
  by apply DecimalFacts.nb_digits_unorm.
Qed.

Lemma digit_count_zero : (digit_count 0 <= int_max_str_digits)%nat.
Proof. unfold digit_count, int_max_str_digits. simpl. lia. Qed.

Lemma digit_count_opp (v : Z) : digit_count (- v) = digit_count v.
Proof. unfold digit_count. by rewrite Z.abs_opp. Qed.

Lemma digit_count_length (v : Z) :
  0 <= v -> digit_count v = String.length (decimal v).
Proof. intros Hv. unfold digit_count. by rewrite Z.abs_eq. Qed.

End decimal.

(** ** The matcher on [ENV_NAME_RE] *)

Section matcher.

Lemma is_name_char_digit (c : ascii) :
  category_digit c = true -> is_name_char c = true.
Proof.
  unfold is_name_char, set_matches, name_set, category_digit. simpl.
  unfold category_word. by intros ->.
Qed.

Lemma digit_set (s : string) :
  forall_chars (set_matches [CategoryDigit]) s = forall_chars category_digit s.
Proof.
  induction s as [|c s IH]; simpl; [done|]. by rewrite IH, orb_false_r.
Qed.

Lemma nonempty_true (s : string) : nonempty s = true <-> s <> EmptyString.
Proof. unfold nonempty. by rewrite negb_true_iff, String.eqb_neq. Qed.

Lemma eqb_empty_cons (c : ascii) (s : string) :
  String.eqb (String c s) EmptyString = false.
Proof. done. Qed.

Lemma min_repeat1_ext (items : list set_item) (k k' : cont) (caps : captures)
    (s : string) :
  (forall rest c, k rest c = k' rest c) ->
  min_repeat1 items k caps s = min_repeat1 items k' caps s.
Proof.
  intros Hk. induction s as [|c s IH]; simpl; [done|].
  by rewrite Hk, IH.
Qed.

(** A greedy repetition in front of a continuation that only accepts the
    end of the subject takes everything or fails. *)
Lemma max_repeat1_to_end (items : list set_item) (k : cont) (caps : captures)
    (s : string) :
  (forall rest c, rest <> EmptyString -> k rest c = None) ->
  max_repeat1 items k caps s =
    if nonempty s && forall_chars (set_matches items) s
    then k EmptyString caps else None.
Proof.
  intros Hk. induction s as [|c s IH]; [done|].
  cbn [max_repeat1 forall_chars]. rewrite IH.
  change (nonempty (String c s)) with true.
  destruct (set_matches items c); [|done]. cbn [andb].
  destruct s as [|c' s]; [done|].
  change (nonempty (String c' s)) with true. cbn [andb].
  destruct (forall_chars (set_matches items) (String c' s)).
  - destruct (k EmptyString caps); [done|]. by apply Hk.
  - by apply Hk.
Qed.

Lemma version_suffix_Some (rest d : string) :
  version_suffix rest = Some d <->
  rest = "-v" +:+ d /\ is_digits d = true.
Proof.
  unfold version_suffix. split.
  - destruct rest as [|c1 [|c2 r]]; try done.
    destruct (Ascii.eqb_spec "-" c1) as [<-|]; [|done].
    destruct (Ascii.eqb_spec "v" c2) as [<-|]; [|done]. simpl.
    destruct (is_digits r) eqn:Hr; [|done]. by intros [= <-].
  - intros [-> Hd]. change ("-v" +:+ d) with (String "-" (String "v" d)).
    cbv beta iota. by rewrite !Ascii.eqb_refl, Hd.
Qed.

(** What [(?:-v(?P<version>\d+))?$] does at the end of a full match. *)
Lemma tail_spec (subject rest : string) (caps : captures) :
  run subject
    (Seq (Optional (Seq (Literal "-") (Seq (Literal "v")
                     (Named "version" (MaxRepeat1 [CategoryDigit])))))
       AtEnd)
    rest caps
    (fun rest caps => if String.eqb rest EmptyString then Some caps else None)
  = tail_match rest caps.
Proof.
  unfold tail_match, version_suffix. cbn [run].
  destruct rest as [|c1 rest]; [done|].
  assert (Hend : forall c, (if String.eqb (String c1 rest) EmptyString
                         || String.eqb (String c1 rest) newline
                       then if String.eqb (String c1 rest) EmptyString
                            then Some c else None
                       else None) = (None : option captures)).
  { intros c. rewrite eqb_empty_cons. by destruct (_ || _). }
  destruct rest as [|c2 d]; [by destruct (Ascii.eqb "-" c1); rewrite Hend|].
  destruct (Ascii.eqb "-" c1); cbn [andb]; [|by rewrite Hend].
  destruct (Ascii.eqb "v" c2); cbn [andb]; [|by rewrite Hend].
  rewrite max_repeat1_to_end.
  - rewrite digit_set. fold (is_digits d).
    destruct (is_digits d); [|by rewrite Hend].
    simpl. by rewrite taken_all.
  - intros r c Hr. apply String.eqb_neq in Hr. rewrite Hr.
    by destruct (String.eqb r newline).
Qed.

(** The continuation the name group is matched in front of. *)
Lemma fullmatch_unfold (s : string) :
  fullmatch ENV_NAME_RE s =
    min_repeat1 name_set
      (fun rest caps => tail_match rest (("name"%string, taken s rest) :: caps))
      [] s.
Proof.
  unfold fullmatch, ENV_NAME_RE. cbn [run]. rewrite Nat.eqb_refl.
  apply min_repeat1_ext. intros rest caps. apply (tail_spec s).
Qed.

End matcher.

(** ** What [parse_env_id] computes *)

Section parse.

Lemma name_loop_cons (pre : string) (c : ascii) (s : string) (caps : captures) :
  name_loop pre (String c s) caps =
    if is_name_char c then
      match tail_match s (("name"%string, pre +:+ String c EmptyString) :: caps) with
      | Some m => Some m
      | None => name_loop (pre +:+ String c EmptyString) s caps
      end
    else None.
Proof.
  unfold name_loop. cbn [min_repeat1]. fold (is_name_char c).
  rewrite <- (append_snoc pre c s), taken_app.
  by rewrite (append_snoc pre c s).
Qed.

Lemma version_suffix_legal (rest d : string) :
  version_suffix rest = Some d -> legal rest = true.
Proof.
  intros [-> Hd]%version_suffix_Some.
  unfold is_digits in Hd. apply andb_true_iff in Hd as [_ Hd].
  change ("-v" +:+ d) with (String "-" (String "v" d)).
  unfold legal. cbn [forall_chars].
  apply (forall_chars_impl _ _ _ is_name_char_digit) in Hd. by rewrite Hd.
Qed.

Lemma version_suffix_inside (x d : string) :
  x <> EmptyString -> version_suffix (x +:+ "-v" +:+ d) = None.
Proof.
  intros Hx. destruct (version_suffix _) as [d'|] eqn:E; [|done].
  apply version_suffix_Some in E as [E Hd']. exfalso.
  rewrite ?append_cons, ?append_nil_l in E.
  destruct x as [|a [|b x]]; [done|by rewrite ?append_cons, ?append_nil_l in E|].
  rewrite ?append_cons, ?append_nil_l in E.
  injection E as -> -> <-.
  unfold is_digits in Hd'. rewrite forall_chars_app in Hd'.
  rewrite ?append_cons, ?append_nil_l in Hd'.
  cbn [forall_chars] in Hd'. change (category_digit "-") with false in Hd'.
  by rewrite !andb_false_r in Hd'.
Qed.

Lemma legal_cons (c : ascii) (s : string) :
  legal (String c s) = is_name_char c && legal s.
Proof. done. Qed.

(** A match of the name group ends where the tail of the pattern can take
    the rest. *)
Lemma name_loop_sound (s pre : string) (caps m : captures) :
  name_loop pre s caps = Some m ->
  exists p rest,
    s = p +:+ rest /\ p <> EmptyString /\ legal p = true /\
    ((rest = EmptyString /\ m = ("name"%string, pre +:+ p) :: caps) \/
     (exists d, rest = "-v" +:+ d /\ is_digits d = true /\
                m = ("version"%string, d) :: ("name"%string, pre +:+ p) :: caps)).
Proof.
  revert pre. induction s as [|c s IH]; intros pre; [done|].
  rewrite name_loop_cons. destruct (is_name_char c) eqn:Hc; [|done].
  destruct (tail_match s _) as [m'|] eqn:Ht.
  - intros [= ->]. exists (String c EmptyString), s.
    split; [done|]. split; [done|]. split; [by rewrite legal_cons, Hc|].
    unfold tail_match in Ht. destruct (version_suffix s) as [d|] eqn:Hs.
    + right. exists d. apply version_suffix_Some in Hs as [-> Hd].
      by injection Ht as <-.
    + left. destruct (String.eqb_spec s EmptyString) as [->|]; [|done].
      by injection Ht as <-.
  - intros (p & rest & -> & Hp & Hl & Hm)%IH.
    exists (String c p), rest. split; [done|]. split; [done|].
    split; [by rewrite legal_cons, Hc|].
    by rewrite append_snoc in Hm.
Qed.

(** A legal, non-empty name in front of ["-v"] and digits is found. *)
Lemma name_loop_versioned (p d pre : string) (caps : captures) :
  p <> EmptyString -> legal p = true -> is_digits d = true ->
  name_loop pre (p +:+ "-v" +:+ d) caps =
    Some (("version"%string, d) :: ("name"%string, pre +:+ p) :: caps).
Proof.
  intros Hp Hl Hd. revert pre Hp Hl.
  induction p as [|c p IH]; intros pre Hp Hl; [done|].
  rewrite append_cons, name_loop_cons.
  rewrite legal_cons in Hl. apply andb_true_iff in Hl as [-> Hl].
  destruct p as [|c' p].
  - unfold tail_match.
    by rewrite append_nil_l, (proj2 (version_suffix_Some _ d)).
  - unfold tail_match at 1. rewrite version_suffix_inside by done.
    rewrite append_cons, eqb_empty_cons, <- append_cons.
    rewrite IH by done. by rewrite append_snoc.
Qed.

(** Without such a suffix the whole subject is the name. *)
Lemma name_loop_unversioned (s pre : string) (caps : captures) :
  s <> EmptyString -> legal s = true ->
  (forall p d, p <> EmptyString -> is_digits d = true -> s <> p +:+ "-v" +:+ d) ->
  name_loop pre s caps = Some (("name"%string, pre +:+ s) :: caps).
Proof.
  revert pre. induction s as [|c s IH]; intros pre Hs Hl Hno; [done|].
  rewrite name_loop_cons.
  rewrite legal_cons in Hl. apply andb_true_iff in Hl as [-> Hl].
  unfold tail_match. destruct (version_suffix s) as [d|] eqn:E.
  - apply version_suffix_Some in E as [-> Hd].
    by destruct (Hno (String c EmptyString) d).
  - destruct s as [|c' s]; [done|].
    rewrite eqb_empty_cons, IH; [by rewrite append_snoc|done|done|].
    intros p d Hp Hd Heq. apply (Hno (String c p) d); [done|done|].
    by rewrite append_cons, <- Heq.
Qed.

(** A character outside the class makes the match fail. *)
Lemma name_loop_illegal (s pre : string) (caps : captures) :
  legal s = false -> name_loop pre s caps = None.
Proof.
  revert pre. induction s as [|c s IH]; intros pre Hl; [done|].
  rewrite name_loop_cons. rewrite legal_cons in Hl.
  destruct (is_name_char c); [|done]. simpl in Hl.
  unfold tail_match. destruct (version_suffix s) as [d|] eqn:E.
  - apply version_suffix_legal in E. congruence.
  - destruct s as [|c' s]; [done|]. rewrite eqb_empty_cons. by apply IH.
Qed.

Lemma fullmatch_name_loop (s : string) :
  fullmatch ENV_NAME_RE s = name_loop EmptyString s [].
Proof. apply fullmatch_unfold. Qed.

Lemma parse_env_id_suffixed (n d : string) :
  n <> EmptyString -> legal n = true -> is_digits d = true ->
  parse_env_id (n +:+ "-v" +:+ d) =
    match int d with
    | Ok v => Ok (n, v)
    | Raise e => Raise e
    end.
Proof.
  intros Hn Hl Hd. unfold parse_env_id.
  by rewrite fullmatch_name_loop, name_loop_versioned.
Qed.

Lemma parse_env_id_versioned (n d : string) :
  n <> EmptyString -> legal n = true -> is_digits d = true ->
  (String.length d <= int_max_str_digits)%nat ->
  parse_env_id (n +:+ "-v" +:+ d) = Ok (n, decimal_value d).
Proof.
  intros Hn Hl Hd Hlen. by rewrite parse_env_id_suffixed, int_within.
Qed.

Lemma parse_env_id_unversioned (s : string) :
  s <> EmptyString -> legal s = true ->
  (forall p d, p <> EmptyString -> is_digits d = true -> s <> p +:+ "-v" +:+ d) ->
  parse_env_id s = Ok (s, 0).
Proof.
  intros Hs Hl Hno. unfold parse_env_id.
  by rewrite fullmatch_name_loop, name_loop_unversioned.
Qed.

Lemma parse_env_id_Ok (s n : string) (v : Z) :
  parse_env_id s = Ok (n, v) ->
  n <> EmptyString /\ legal n = true /\
  ((s = n /\ v = 0) \/
   (exists d, s = n +:+ "-v" +:+ d /\ is_digits d = true /\ int d = Ok v)).
Proof.
  unfold parse_env_id. rewrite fullmatch_name_loop.
  destruct (name_loop _ s []) as [m|] eqn:E; [|done].
  apply name_loop_sound in E as (p & rest & -> & Hp & Hl & Hm).
  rewrite append_nil_l in Hm.
  destruct Hm as [[-> ->]|(d & -> & Hd & ->)]; cbn.
  - intros [= <- <-].
    split; [done|]. split; [done|]. left. by rewrite append_nil_r.
  - destruct (int d) as [v'|e] eqn:Hi; [|done]. intros [= <- <-].
    split; [done|]. split; [done|]. right. by exists d.
Qed.

Lemma name_loop_legal (s pre : string) (caps : captures) :
  s <> EmptyString -> legal s = true -> name_loop pre s caps <> None.
Proof.
  revert pre. induction s as [|c s IH]; intros pre Hs Hl; [done|].
  rewrite name_loop_cons. rewrite legal_cons in Hl.
  apply andb_true_iff in Hl as [-> Hl].
  destruct (tail_match s _) eqn:Ht; [done|].
  apply IH; [|done]. intros ->. discriminate Ht.
Qed.

(** [parse_env_id] raises either because the pattern does not match or
    because [int] refuses the digits of the version. *)
Lemma parse_env_id_Raise (s : string) (e : exn) :
  parse_env_id s = Raise e ->
  (e = MalformedIdentifier s /\ (s = EmptyString \/ legal s = false)) \/
  (exists n d, s = n +:+ "-v" +:+ d /\ n <> EmptyString /\ legal n = true /\
               is_digits d = true /\ int d = Raise e).
Proof.
  unfold parse_env_id. rewrite fullmatch_name_loop.
  destruct (name_loop _ s []) as [m|] eqn:E.
  - apply name_loop_sound in E as (p & rest & -> & Hp & Hl & Hm).
    rewrite append_nil_l in Hm.
    destruct Hm as [[-> ->]|(d & -> & Hd & ->)]; cbn; [done|].
    destruct (int d) as [v'|e'] eqn:Hi; [done|]. intros [= <-].
    right. by exists p, d.
  - intros [= <-]. left. split; [done|].
    destruct s as [|c s]; [by left|]. right.
    destruct (legal (String c s)) eqn:Hl; [|done].
    by apply name_loop_legal in E.
Qed.

Lemma parse_env_id_illegal (s : string) :
  s = EmptyString \/ legal s = false ->
  parse_env_id s = Raise (MalformedIdentifier s).
Proof.
  intros Hs. unfold parse_env_id. rewrite fullmatch_name_loop.
  destruct Hs as [->|Hl]; [done|]. by rewrite name_loop_illegal.
Qed.

Lemma or_zero_Some (v : Z) : or_zero (Some v) = v.
Proof. unfold or_zero. destruct (Z.eqb_spec v 0); lia. Qed.

Lemma get_env_id_within (n : string) (v : Z) :
  (digit_count v <= int_max_str_digits)%nat ->
  get_env_id n (Some v) = Ok (env_key n v).
Proof.
  intros Hv. unfold get_env_id. by rewrite or_zero_Some, str_within.
Qed.

Lemma get_env_id_Ok (n : string) (v : Z) (k : string) :
  get_env_id n (Some v) = Ok k ->
  k = env_key n v /\ (digit_count v <= int_max_str_digits)%nat.
Proof.
  unfold get_env_id. rewrite or_zero_Some.
  destruct (str v) as [text|e] eqn:Hs; [|done].
  apply str_Ok in Hs as [-> Hv]. by intros [= <-].
Qed.

(** A version of more than 4300 digits is not printed. *)
Lemma get_env_id_beyond (n : string) (v : Z) :
  (int_max_str_digits < digit_count v)%nat ->
  get_env_id n (Some v)
  = Raise (ValueError ("Exceeds the limit (4300 digits) for integer string conversion; "
                       +:+ "use sys.set_int_max_str_digits() to increase the limit")).
Proof.
  intros Hv. unfold get_env_id, str. rewrite or_zero_Some.
  by destruct (Nat.ltb_spec int_max_str_digits (digit_count v)); [|lia].
Qed.

(** Version digits beyond that length are not read. *)
Lemma parse_env_id_beyond (n d : string) :
  n <> EmptyString -> legal n = true -> is_digits d = true ->
  (int_max_str_digits < String.length d)%nat ->
  parse_env_id (n +:+ "-v" +:+ d)
  = Raise (ValueError ("Exceeds the limit (4300 digits) for integer string conversion: "
                       +:+ "value has " +:+ nat_text (String.length d) +:+ " digits; "
                       +:+ "use sys.set_int_max_str_digits() to increase the limit")).
Proof.
  intros Hn Hl Hd Hlen. rewrite parse_env_id_suffixed by done. unfold int.
  by destruct (Nat.ltb_spec int_max_str_digits (String.length d)); [|lia].
Qed.

(** The identifier that [get_env_id] prints parses back. *)
Lemma parse_env_key (n : string) (v : Z) :
  n <> EmptyString -> legal n = true -> 0 <= v ->
  (digit_count v <= int_max_str_digits)%nat ->
  parse_env_id (env_key n v) = Ok (n, v).
Proof.
  intros Hn Hl Hv Hc. unfold env_key.
  rewrite parse_env_id_versioned; [by rewrite decimal_value_decimal|done..| |].
  - by apply decimal_digits.
  - by rewrite <- digit_count_length.
Qed.

Lemma parse_env_id_digits (s n : string) (v : Z) :
  parse_env_id s = Ok (n, v) ->
  0 <= v /\ (digit_count v <= int_max_str_digits)%nat.
Proof.
  intros (_ & _ & [[_ ->]|(d & _ & Hd & [-> Hlen]%int_Ok)])%parse_env_id_Ok.
  - split; [done|apply digit_count_zero].
  - split; [by apply decimal_value_nonneg|].
    pose proof (digit_count_decimal_value d Hd). lia.
Qed.

Lemma parse_env_id_canonical (s n : string) (v : Z) :
  parse_env_id s = Ok (n, v) ->
  get_env_id n (Some v) = Ok (env_key n v) /\
  parse_env_id (env_key n v) = Ok (n, v).
Proof.
  intros Hp. destruct (parse_env_id_digits _ _ _ Hp) as [Hv Hc].
  apply parse_env_id_Ok in Hp as (Hn & Hl & _).
  split; [by apply get_env_id_within|by apply parse_env_key].
Qed.

End parse.

(** ** Dictionaries *)

Lemma filter_nil_Forall {A} (P : A -> Prop) `{!forall x, Decision (P x)} (l : list A) :
  filter P l = [] <-> Forall (fun x => ~ P x) l.
Proof.
  induction l as [|x l IH]; [by rewrite filter_nil|].
  rewrite filter_cons, Forall_cons. destruct (decide (P x)) as [HP|HP].
  - split; [done|]. by intros [? _].
  - rewrite IH. tauto.
Qed.

Section dict_facts.

Context {V : Type}.
Implicit Types (d other : dict V) (k : string) (v : V).

Lemma dict_get_set d k k' v :
  dict_get (dict_set d k v) k' =
    if String.eqb k' k then Some v else dict_get d k'.
Proof.
  induction d as [|[k0 v0] d IH]; simpl.
  - by destruct (String.eqb k' k).
  - destruct (String.eqb_spec k k0) as [->|Hk]; simpl.
    + by destruct (String.eqb k' k0).
    + rewrite IH. destruct (String.eqb_spec k' k0) as [->|]; [|done].
      by rewrite (proj2 (String.eqb_neq k0 k)).
Qed.

Lemma dict_contains_keys d k :
  dict_contains d k = true <-> k ∈ dict_keys d.
Proof.
  unfold dict_contains, dict_keys. induction d as [|[k0 v0] d IH]; simpl.
  - split; [done|]. by intros ?%elem_of_nil.
  - rewrite elem_of_cons. destruct (String.eqb_spec k k0) as [->|Hk].
    + split; [by left|done].
    + rewrite IH. split; [by right|]. by intros [?|?].
Qed.

Lemma dict_contains_false d k :
  dict_contains d k = false <-> k ∉ dict_keys d.
Proof.
  rewrite <- dict_contains_keys. by destruct (dict_contains d k).
Qed.

Lemma dict_get_elem d k v : dict_get d k = Some v -> (k, v) ∈ d.
Proof.
  induction d as [|[k0 v0] d IH]; simpl; [done|].
  destruct (String.eqb_spec k k0) as [->|Hk].
  - intros [= ->]. apply elem_of_cons. by left.
  - intros ?%IH. apply elem_of_cons. by right.
Qed.

Lemma dict_contains_get d k :
  dict_contains d k = true -> exists v, dict_get d k = Some v.
Proof. unfold dict_contains. destruct (dict_get d k); [eauto|done]. Qed.

(** A key that is not there yet goes to the end. *)
Lemma dict_set_new d k v :
  dict_contains d k = false -> dict_set d k v = d ++ [(k, v)].
Proof.
  unfold dict_contains. induction d as [|[k0 v0] d IH]; simpl; [done|].
  destruct (String.eqb k k0); [done|]. intros ?%IH. by f_equal.
Qed.

Lemma dict_keys_app d other :
  dict_keys (d ++ other) = dict_keys d ++ dict_keys other.
Proof. apply map_app. Qed.

Lemma dict_get_unique d k v :
  NoDup (dict_keys d) -> (k, v) ∈ d -> dict_get d k = Some v.
Proof.
  unfold dict_keys. induction d as [|[k0 v0] d IH]; simpl.
  - by intros _ ?%elem_of_nil.
  - intros [Hk0 Hd]%NoDup_cons [[= -> ->]|Hin]%elem_of_cons.
    + by rewrite String.eqb_refl.
    + destruct (String.eqb_spec k k0) as [->|]; [|by apply IH].
      destruct Hk0. apply list_elem_of_fmap. by exists (k0, v).
Qed.

(** With pairwise different keys a key selects one item. *)
Lemma dict_filter_key d k v :
  NoDup (dict_keys d) -> dict_get d k = Some v ->
  filter (fun kv => fst kv = k) d = [(k, v)].
Proof.
  unfold dict_keys. induction d as [|[k0 v0] d IH]; [done|].
  cbn [map dict_get fst]. intros [Hk0 Hd]%NoDup_cons.
  destruct (String.eqb_spec k k0) as [->|Hk].
  - intros [= ->]. rewrite filter_cons_True by done. f_equal.
    apply filter_nil_Forall, Forall_forall. intros [k1 v1] Hin Hk1.
    simpl in Hk1. subst k1. destruct Hk0.
    apply list_elem_of_fmap. by exists (k0, v1).
  - intros Hget. rewrite filter_cons_False by (simpl; congruence).
    by apply IH.
Qed.

(** [d.update(other)]: the entry of [other] wins, key by key. *)
Lemma dict_get_update d other k :
  NoDup (dict_keys other) ->
  dict_get (dict_update d other) k =
    match dict_get other k with
    | Some v => Some v
    | None => dict_get d k
    end.
Proof.
  unfold dict_update, dict_keys. revert d.
  induction other as [|[k0 v0] other IH]; intros d; simpl; [done|].
  intros [Hk0 Hd]%NoDup_cons. rewrite IH by done.
  destruct (String.eqb_spec k k0) as [->|Hk].
  - destruct (dict_get other k0) as [v|] eqn:E.
    + destruct Hk0. apply list_elem_of_fmap. exists (k0, v).
      split; [done|]. by apply dict_get_elem.
    + by rewrite dict_get_set, String.eqb_refl.
  - rewrite dict_get_set. by rewrite (proj2 (String.eqb_neq k k0)).
Qed.

End dict_facts.

(** ** Running the registry operations *)

Lemma bind_run {A B} (m : M A) (f : A -> M B) (s : state) :
  bind m f s =
    match m s with
    | (Ok a, s') => f a s'
    | (Raise e, s') => (Raise e, s')
    end.
Proof. done. Qed.

Lemma canonical_parse (id n : string) (v : Z) :
  parse_env_id id = Ok (n, v) -> canonical id = Some (env_key n v).
Proof.
  intros Hp. unfold canonical.
  by rewrite Hp, (proj1 (parse_env_id_canonical _ _ _ Hp)).
Qed.

(** Running a function up to the parsing of its identifier. *)
Ltac run_parse Hp := rewrite bind_run; unfold lift; rewrite Hp.

(** The same, up to the printing of the canonical identifier. *)
Ltac run_key Hp :=
  run_parse Hp; rewrite bind_run, (proj1 (parse_env_id_canonical _ _ _ Hp)).

Section registry_facts.

Implicit Types (s : state) (registry : dict EnvSpec.t).

Lemma state_eta s : State (_REGISTRY s) (heap s) = s.
Proof. by destruct s. Qed.

Lemma extends_refl s : extends s s.
Proof. by split. Qed.

Lemma extends_trans s1 s2 s3 : extends s1 s2 -> extends s2 s3 -> extends s1 s3.
Proof.
  intros [? ?] [? ?]. split; [congruence|]. by etrans.
Qed.

Lemma fresh_loc_free s : heap s !! fresh (dom (heap s)) = None.
Proof. apply not_elem_of_dom, is_fresh. Qed.

Lemma extends_alloc s (d : dict pyobj) :
  extends s (State (_REGISTRY s) (<[fresh (dom (heap s)) := d]> (heap s))).
Proof. split; [done|]. apply insert_subseteq, fresh_loc_free. Qed.

(** *** Binding the keywords *)

Lemma accepted_positional (keys : list string) :
  forallb (fun k => String.eqb k "kwargs") keys = true ->
  List.find is_positional_field keys = None.
Proof.
  induction keys as [|k keys IH]; simpl; [done|].
  rewrite andb_true_iff. intros [->%String.eqb_eq Hk]. by apply IH.
Qed.

Lemma accepted_unexpected (keys : list string) :
  forallb (fun k => String.eqb k "kwargs") keys = true ->
  List.find (fun k => negb (String.eqb k "kwargs")) keys = None.
Proof.
  induction keys as [|k keys IH]; simpl; [done|].
  rewrite andb_true_iff. intros [-> Hk]. by apply IH.
Qed.

Lemma rejected_unexpected (keys : list string) :
  forallb (fun k => String.eqb k "kwargs") keys = false ->
  exists k, List.find (fun k => negb (String.eqb k "kwargs")) keys = Some k.
Proof.
  induction keys as [|k keys IH]; simpl; [done|].
  destruct (String.eqb k "kwargs"); simpl; eauto.
Qed.

Lemma EnvSpec_call_accepted (id entry_point : string) (kwargs : dict pyobj) s :
  accepted kwargs = true ->
  EnvSpec_call id entry_point kwargs s =
    EnvSpec_init id entry_point (dict_get kwargs "kwargs") s.
Proof.
  intros Hk. unfold EnvSpec_call.
  by rewrite (accepted_positional _ Hk), (accepted_unexpected _ Hk).
Qed.

Lemma EnvSpec_call_rejected (id entry_point : string) (kwargs : dict pyobj) s :
  accepted kwargs = false ->
  exists msg, EnvSpec_call id entry_point kwargs s = (Raise (TypeError msg), s).
Proof.
  intros Hk. unfold EnvSpec_call.
  destruct (List.find is_positional_field _) as [k|]; [by eexists|].
  destruct (rejected_unexpected _ Hk) as [k ->]. by eexists.
Qed.

Lemma stored_kwargs_extends given s o h' :
  stored_kwargs given s o h' -> heap s ⊆ h'.
Proof.
  destruct given; simpl.
  - by intros [_ ->].
  - intros (l & _ & Hl & ->). by apply insert_subseteq.
Qed.

Lemma EnvSpec_init_run (id entry_point : string) (given : option pyobj) s
    (n : string) (v : Z) :
  parse_env_id id = Ok (n, v) ->
  exists o h',
    stored_kwargs given s o h' /\
    EnvSpec_init id entry_point given s =
      (Ok (EnvSpec.Build id entry_point o n v), State (_REGISTRY s) h').
Proof.
  intros Hp. unfold EnvSpec_init. destruct given as [x|].
  - exists x, (heap s). split; [done|].
    rewrite bind_run. unfold ret at 1. rewrite bind_run. unfold lift.
    rewrite Hp. unfold ret. by rewrite state_eta.
  - exists (PyRef (fresh (dom (heap s)))), (<[fresh (dom (heap s)) := []]> (heap s)).
    split; [eexists; split; [done|]; split; [apply fresh_loc_free|done]|].
    rewrite !bind_run. unfold alloc at 1. unfold ret at 1.
    rewrite bind_run. unfold lift. by rewrite Hp.
Qed.

(** *** The check *)

Lemma latest_version_None registry (n : string) :
  max_default
    (map EnvSpec.version
       (filter (fun _spec => EnvSpec.name _spec = n) (dict_values registry)))
  = None <-> unnamed registry n.
Proof.
  unfold unnamed, dict_values.
  destruct (filter _ _) as [|x l] eqn:E.
  - split; [intros _|done]. apply filter_nil_Forall in E.
    apply Forall_forall. intros kv Hin.
    apply (proj1 (Forall_forall _ _) E), list_elem_of_fmap. by exists kv.
  - split; [done|]. intros Hn. exfalso.
    assert (Hx : x ∈ filter (fun _spec => EnvSpec.name _spec = n)
                       (map snd registry)) by (rewrite E; left).
    apply list_elem_of_filter in Hx as [Hx Hin].
    apply list_elem_of_fmap in Hin as (kv & -> & Hin).
    by apply (proj1 (Forall_forall _ _) Hn) in Hin.
Qed.

Lemma check_run (spec : EnvSpec.t) s :
  _check_registration_is_allowed spec s =
    if dict_contains (_REGISTRY s) (EnvSpec.id spec)
    then (Raise (DuplicateRegistration (EnvSpec.id spec)), s)
    else if bool_decide (unnamed (_REGISTRY s) (EnvSpec.name spec))
            && negb (EnvSpec.version spec =? 0)
         then (match str (EnvSpec.version spec) with
               | Ok got => Raise (version_gap_error got)
               | Raise e => Raise e
               end, s)
         else (Ok tt, s).
Proof.
  unfold _check_registration_is_allowed. rewrite bind_run. unfold get_registry.
  destruct (dict_contains _ _); [done|].
  destruct (max_default _) as [x|] eqn:E.
  - rewrite bool_decide_eq_false_2; [done|].
    intros Hn%latest_version_None. congruence.
  - apply latest_version_None in E. rewrite bool_decide_eq_true_2 by done.
    simpl. destruct (negb _); [|done].
    rewrite bind_run. unfold lift. by destruct (str _).
Qed.

(** *** [register] *)

Lemma register_malformed (id entry_point : string) (kwargs : dict pyobj) s (e : exn) :
  parse_env_id id = Raise e ->
  register id entry_point kwargs s = (Raise e, s).
Proof. intros Hp. unfold register. by run_parse Hp. Qed.

Lemma register_rejected (id entry_point : string) (kwargs : dict pyobj) s
    (n : string) (v : Z) :
  parse_env_id id = Ok (n, v) -> accepted kwargs = false ->
  exists msg, register id entry_point kwargs s = (Raise (TypeError msg), s).
Proof.
  intros Hp Hk. unfold register. run_key Hp.
  rewrite bind_run.
  destruct (EnvSpec_call_rejected (env_key n v) entry_point kwargs s Hk)
    as [msg ->].
  by exists msg.
Qed.

Lemma register_run (id entry_point : string) (kwargs : dict pyobj) s
    (n : string) (v : Z) :
  parse_env_id id = Ok (n, v) -> accepted kwargs = true ->
  exists o h',
    stored_kwargs (dict_get kwargs "kwargs") s o h' /\
    register id entry_point kwargs s =
      let env_id := env_key n v in
      if dict_contains (_REGISTRY s) env_id
      then (Raise (DuplicateRegistration env_id), State (_REGISTRY s) h')
      else if bool_decide (unnamed (_REGISTRY s) n) && negb (v =? 0)
           then (Raise (VersionGapError v), State (_REGISTRY s) h')
           else (Ok tt,
                 State (dict_set (_REGISTRY s) env_id
                          (EnvSpec.Build env_id entry_point o n v)) h').
Proof.
  intros Hp Hk.
  destruct (EnvSpec_init_run (env_key n v) entry_point
              (dict_get kwargs "kwargs") s n v
              (proj2 (parse_env_id_canonical _ _ _ Hp)))
    as (o & h' & Hst & Hinit).
  exists o, h'. split; [done|].
  unfold register. run_key Hp.
  rewrite bind_run, EnvSpec_call_accepted, Hinit by done.
  rewrite bind_run, check_run. cbn [EnvSpec.id EnvSpec.name EnvSpec.version _REGISTRY].
  destruct (parse_env_id_digits _ _ _ Hp) as [_ Hc].
  rewrite (str_within _ Hc). fold (VersionGapError v).
  destruct (dict_contains _ _); [done|].
  by destruct (bool_decide _ && negb _).
Qed.

End registry_facts.

(** ** The registry across calls *)

Section across_calls.

Implicit Types (s : state) (registry : dict EnvSpec.t).

Lemma registry_ok_nil : registry_ok [].
Proof. split; [apply NoDup_nil_2|apply Forall_nil_2]. Qed.

Lemma registry_ok_snoc registry (env_id entry_point : string) (o : pyobj)
    (n : string) (v : Z) :
  registry_ok registry ->
  dict_contains registry env_id = false ->
  parse_env_id env_id = Ok (n, v) ->
  registry_ok (registry ++ [(env_id, EnvSpec.Build env_id entry_point o n v)]).
Proof.
  intros [Hk Hr] Hc%dict_contains_false Hp. split.
  - rewrite dict_keys_app. apply NoDup_app. split; [done|]. split.
    + intros k Hin [->|[]%elem_of_nil]%elem_of_cons. done.
    + apply NoDup_singleton.
  - apply Forall_app. split; [done|]. by apply Forall_singleton.
Qed.

(** A record of a well-formed registry under a canonical key carries the
    name that key was printed from. *)
Lemma registry_ok_name registry (n : string) (v : Z) (id : string) :
  registry_ok registry ->
  parse_env_id id = Ok (n, v) ->
  dict_contains registry (env_key n v) = true ->
  ~ unnamed registry n.
Proof.
  intros [_ Hr] Hp [spec Hg%dict_get_elem]%dict_contains_get Hn.
  apply (proj1 (Forall_forall _ _) Hr) in Hg as Hrec.
  apply (proj1 (Forall_forall _ _) Hn) in Hg as Hne.
  destruct Hrec as [_ Hrec]. simpl in *.
  rewrite (proj2 (parse_env_id_canonical _ _ _ Hp)) in Hrec. congruence.
Qed.

(** Whatever a call of [register] returns, the state afterwards has the
    old objects untouched and the registry either as it was or with one
    record more, at the end. *)
Lemma register_after (id entry_point : string) (kwargs : dict pyobj) s :
  exists s', 
    register id entry_point kwargs s = (fst (register id entry_point kwargs s), s') /\
    heap s ⊆ heap s' /\
    match fst (register id entry_point kwargs s) with
    | Raise _ => _REGISTRY s' = _REGISTRY s
    | Ok _ =>
        exists n v o,
          parse_env_id id = Ok (n, v) /\
          accepted kwargs = true /\
          dict_contains (_REGISTRY s) (env_key n v) = false /\
          (unnamed (_REGISTRY s) n -> v = 0) /\
          stored_kwargs (dict_get kwargs "kwargs") s o (heap s') /\
          _REGISTRY s' =
            _REGISTRY s ++
              [(env_key n v,
                EnvSpec.Build (env_key n v) entry_point o n v)]
    end.
Proof.
  destruct (parse_env_id id) as [[n v]|e] eqn:Hp.
  2:{ exists s. by rewrite (register_malformed _ _ _ _ _ Hp). }
  destruct (accepted kwargs) eqn:Hk.
  2:{ destruct (register_rejected _ entry_point _ s _ _ Hp Hk) as [msg ->].
      by exists s. }
  destruct (register_run _ entry_point _ s _ _ Hp Hk) as (o & h' & Hst & ->).
  cbv zeta. apply stored_kwargs_extends in Hst as Hsub.
  destruct (dict_contains _ _) eqn:Hc; [by eexists|].
  destruct (bool_decide _) eqn:Hu; simpl.
  - apply bool_decide_eq_true in Hu. destruct (Z.eqb_spec v 0) as [->|Hv]; simpl.
    + eexists. split; [done|]. split; [done|]. exists n, 0, o.
      by rewrite dict_set_new.
    + by eexists.
  - apply bool_decide_eq_false in Hu.
    eexists. split; [done|]. split; [done|]. exists n, v, o.
    by rewrite dict_set_new.
Qed.

Lemma register_extends_on_raise (id entry_point : string) (kwargs : dict pyobj)
    s s' (e : exn) :
  register id entry_point kwargs s = (Raise e, s') -> extends s s'.
Proof.
  intros Hr. destruct (register_after id entry_point kwargs s) as (s1 & Hs1 & Hh & Hf).
  rewrite Hr in Hs1, Hf. simpl in *. injection Hs1 as <-. by split.
Qed.

Lemma register_preserves_ok (id entry_point : string) (kwargs : dict pyobj) s :
  registry_ok (_REGISTRY s) ->
  registry_ok (_REGISTRY (snd (register id entry_point kwargs s))).
Proof.
  intros Hok. destruct (register_after id entry_point kwargs s) as (s1 & Hs1 & Hh & Hf).
  rewrite Hs1. simpl. destruct (fst _).
  - destruct Hf as (n & v & o & Hp & _ & Hc & _ & _ & ->).
    apply registry_ok_snoc; [done..|]. by apply parse_env_id_canonical in Hp as [_ Hp].
  - by rewrite Hf.
Qed.

End across_calls.

(** ** Running [make] *)

Section make_facts.

Variable Environment : Type.
Variable import_attr : string -> string -> result (constructor Environment).
Implicit Types (s : state) (args : list pyobj) (kwargs : dict pyobj).

Local Abbreviation make := (make Environment import_attr).
Local Abbreviation construct := (construct Environment import_attr).
Local Abbreviation load := (load Environment import_attr).

Lemma make_malformed (id : string) args kwargs s (e : exn) :
  parse_env_id id = Raise e -> make id args kwargs s = (Raise e, s).
Proof. intros Hp. unfold make. by run_parse Hp. Qed.

Lemma make_unregistered (id : string) args kwargs s (n : string) (v : Z) :
  parse_env_id id = Ok (n, v) ->
  dict_contains (_REGISTRY s) (env_key n v) = false ->
  make id args kwargs s =
    (Raise (UnregisteredEnvironment (env_key n v)
              (dict_keys (_REGISTRY s))), s).
Proof.
  intros Hp Hc. unfold make. run_key Hp.
  rewrite bind_run. unfold get_registry. by rewrite Hc.
Qed.

Lemma make_found (id : string) args kwargs s (n : string) (v : Z)
    (spec : EnvSpec.t) :
  parse_env_id id = Ok (n, v) ->
  dict_get (_REGISTRY s) (env_key n v) = Some spec ->
  make id args kwargs s = construct spec args kwargs s.
Proof.
  intros Hp Hg. unfold make. run_key Hp.
  rewrite bind_run. unfold get_registry, dict_contains. rewrite Hg.
  cbn [negb]. by rewrite bind_run.
Qed.

(** The record's dictionary is copied to a new object, the copy is updated
    and handed to the constructor. *)
Lemma construct_run (spec : EnvSpec.t) args kwargs s (l : loc)
    (defaults : dict pyobj) :
  EnvSpec.kwargs spec = PyRef l ->
  heap s !! l = Some defaults ->
  construct spec args kwargs s =
    (match load (EnvSpec.entry_point spec) with
     | Ok env_fn => env_fn args (dict_update defaults kwargs)
     | Raise e => Raise e
     end,
     State (_REGISTRY s)
       (<[fresh (dom (heap s)) := dict_update defaults kwargs]> (heap s))).
Proof.
  intros Hk Hl. unfold construct. rewrite Hk. unfold copy.
  rewrite !bind_run. unfold deref at 1. rewrite Hl.
  unfold alloc at 1. unfold update. rewrite !bind_run.
  unfold deref at 1. cbn [heap _REGISTRY]. rewrite lookup_insert_eq.
  unfold store. cbn [heap _REGISTRY]. rewrite insert_insert_eq.
  unfold lift at 1. destruct (load _) as [env_fn|e]; [|done].
  rewrite !bind_run. unfold deref. cbn [heap]. by rewrite lookup_insert_eq.
Qed.

Lemma construct_extends (spec : EnvSpec.t) args kwargs s :
  extends s (snd (construct spec args kwargs s)).
Proof.
  destruct (EnvSpec.kwargs spec) as [| | |l] eqn:Hk;
    try (unfold construct; rewrite Hk; apply extends_refl).
  destruct (heap s !! l) as [defaults|] eqn:Hl.
  - rewrite (construct_run _ _ _ _ _ _ Hk Hl). apply extends_alloc.
  - unfold construct. rewrite Hk. unfold copy. rewrite !bind_run.
    unfold deref. rewrite Hl. apply extends_refl.
Qed.

Lemma make_extends (id : string) args kwargs s :
  extends s (snd (make id args kwargs s)).
Proof.
  destruct (parse_env_id id) as [[n v]|e] eqn:Hp.
  2:{ rewrite (make_malformed _ _ _ _ _ Hp). apply extends_refl. }
  destruct (dict_get (_REGISTRY s) (env_key n v)) as [spec|] eqn:Hg.
  - rewrite (make_found _ _ _ _ _ _ _ Hp Hg). apply construct_extends.
  - rewrite (make_unregistered _ _ _ _ _ _ Hp); [apply extends_refl|].
    unfold dict_contains. by rewrite Hg.
Qed.

Local Abbreviation after := (after Environment import_attr).
Local Abbreviation after_all := (after_all Environment import_attr).
Local Abbreviation registered_by_all := (registered_by_all Environment import_attr).

(** Each call leaves the keys of the registry in place and puts the key it
    registered, if any, behind them. *)
Lemma after_keys (c : call) s :
  dict_keys (_REGISTRY (after c s)) = dict_keys (_REGISTRY s) ++ registered_by c s.
Proof.
  destruct c as [id entry_point kwargs|id args kwargs|]; simpl.
  - destruct (register_after id entry_point kwargs s) as (s1 & Hs1 & _ & Hf).
    rewrite Hs1. simpl. destruct (fst _).
    + destruct Hf as (n & v & o & Hp & _ & _ & _ & _ & ->).
      by rewrite (canonical_parse _ _ _ Hp), dict_keys_app.
    + rewrite Hf. by rewrite app_nil_r.
  - destruct (make_extends id args kwargs s) as [-> _]. by rewrite app_nil_r.
  - by rewrite app_nil_r.
Qed.

Lemma after_all_keys (cs : list call) s :
  dict_keys (_REGISTRY (after_all cs s)) =
    dict_keys (_REGISTRY s) ++ registered_by_all cs s.
Proof.
  revert s. induction cs as [|c cs IH]; intros s; simpl.
  - by rewrite app_nil_r.
  - by rewrite IH, after_keys, app_assoc.
Qed.

Lemma after_ok (c : call) s :
  registry_ok (_REGISTRY s) -> registry_ok (_REGISTRY (after c s)).
Proof.
  destruct c as [id entry_point kwargs|id args kwargs|]; simpl; [|..|done].
  - apply register_preserves_ok.
  - by destruct (make_extends id args kwargs s) as [-> _].
Qed.

Lemma after_all_ok (cs : list call) s :
  registry_ok (_REGISTRY s) -> registry_ok (_REGISTRY (after_all cs s)).
Proof.
  revert s. induction cs as [|c cs IH]; intros s Hok; simpl; [done|].
  by apply IH, after_ok.
Qed.

End make_facts.

(** ** The identifier parser and formatter *)

Section parser_claims.

Lemma versioned_spec (s : string) :
  versioned s = true <->
  exists p d, p <> EmptyString /\ is_digits d = true /\ s = p +:+ "-v" +:+ d.
Proof.
  induction s as [|c s IH]; simpl.
  - split; [done|]. intros (p & d & Hp & _ & E). by destruct p.
  - destruct (version_suffix s) as [d|] eqn:Hs.
    + split; [intros _|done]. apply version_suffix_Some in Hs as [-> Hd].
      by exists (String c EmptyString), d.
    + rewrite IH. split.
      * intros (p & d & Hp & Hd & ->). by exists (String c p), d.
      * intros (p & d & Hp & Hd & E). destruct p as [|c' p]; [done|].
        rewrite append_cons in E. injection E as -> ->.
        destruct p as [|c'' p].
        { rewrite append_nil_l in Hs.
          by rewrite (proj2 (version_suffix_Some _ d)) in Hs. }
        by exists (String c'' p), d.
Qed.

Lemma not_versioned (s : string) :
  versioned s = false ->
  forall p d, p <> EmptyString -> is_digits d = true -> s <> p +:+ "-v" +:+ d.
Proof.
  intros Hs p d Hp Hd E.
  assert (versioned s = true) by (apply versioned_spec; eauto).
  congruence.
Qed.

End parser_claims.

(** C1, as stated: for every string [n] of grammar-legal characters and
    every non-negative [v], parsing the formatted identifier gives [(n, v)]
    back.  The empty string has only legal characters, and for it the
    round trip fails: ["-v0"] parses as the name ["-v0"] at version 0. *)
Lemma C1_empty_name_counterexample :
  legal "" = true /\ 0 <= 0 /\
  get_env_id "" (Some 0) = Ok "-v0"%string /\
  parse_env_id "-v0" = Ok ("-v0"%string, 0) /\
  parse_env_id "-v0" <> Ok (""%string, 0).
Proof.
  split; [reflexivity|]. split; [lia|]. split; [by vm_compute|].
  split; by vm_compute.
Qed.

(** C1, amended: for every non-empty string [n] of grammar-legal characters
    and every non-negative integer [v] of at most 4300 decimal digits,
    [get_env_id n v] returns an identifier and [parse_env_id] returns
    exactly [(n, v)] for it. *)
Theorem C1_round_trip (n : string) (v : Z) :
  n <> EmptyString -> legal n = true -> 0 <= v ->
  (digit_count v <= int_max_str_digits)%nat ->
  exists text,
    get_env_id n (Some v) = Ok text /\ parse_env_id text = Ok (n, v).
Proof.
  intros Hn Hl Hv Hc. exists (env_key n v).
  split; [by apply get_env_id_within|by apply parse_env_key].
Qed.

Lemma C1_round_trip_witness :
  "a-v1"%string <> EmptyString /\ legal "a-v1" = true /\ 0 <= 20 /\
  (digit_count 20 <= int_max_str_digits)%nat /\
  exists text,
    get_env_id "a-v1" (Some 20) = Ok text /\
    parse_env_id text = Ok ("a-v1"%string, 20).
Proof.
  assert (Hc : (digit_count 20 <= int_max_str_digits)%nat)
    by (apply Nat.leb_le; reflexivity).
  split; [discriminate|]. split; [reflexivity|]. split; [lia|].
  split; [exact Hc|].
  apply (C1_round_trip "a-v1" 20); [discriminate|reflexivity|lia|exact Hc].
Defined.

(** Beyond 4300 digits neither function returns: the version [10 ^ 4300],
    of 4301 digits, is not printed. *)
Example get_env_id_large_version :
  get_env_id "a" (Some (10 ^ 4300))
  = Raise (ValueError ("Exceeds the limit (4300 digits) for integer string conversion; "
                       +:+ "use sys.set_int_max_str_digits() to increase the limit")).
Proof. apply get_env_id_beyond, Nat.ltb_lt. vm_compute. reflexivity. Qed.

(** C3: an identifier of grammar-legal characters that is not a non-empty
    name followed by ["-v"] and one or more digits parses as the whole
    string at version 0, and whenever [parse_env_id] returns a name
    different from its argument, the argument is that name followed by
    ["-v"] and one or more digits, the version being their value. *)
Theorem C3_version_suffix (s : string) :
  (s <> EmptyString -> legal s = true ->
   (forall p d, p <> EmptyString -> is_digits d = true -> s <> p +:+ "-v" +:+ d) ->
   parse_env_id s = Ok (s, 0)) /\
  (forall n v, parse_env_id s = Ok (n, v) ->
     (s = n /\ v = 0) \/
     (exists d, s = n +:+ "-v" +:+ d /\ is_digits d = true /\ int d = Ok v)).
Proof.
  split.
  - apply parse_env_id_unversioned.
  - intros n v Hp. by apply parse_env_id_Ok in Hp as (_ & _ & Hp).
Qed.

Lemma C3_version_suffix_witness :
  "foo-v-1"%string <> EmptyString /\ legal "foo-v-1" = true /\
  (forall p d, p <> EmptyString -> is_digits d = true ->
               "foo-v-1"%string <> p +:+ "-v" +:+ d) /\
  parse_env_id "foo-v-1" = Ok ("foo-v-1"%string, 0).
Proof.
  split; [discriminate|]. split; [reflexivity|].
  split; [by apply not_versioned|].
  apply (proj1 (C3_version_suffix "foo-v-1"));
    [discriminate|reflexivity|by apply not_versioned].
Defined.

(** ** Registration *)

Section messages.

Lemma malformed_not_gap (id : string) (v : Z) :
  MalformedIdentifier id <> VersionGapError v.
Proof.
  unfold MalformedIdentifier, VersionGapError, version_gap_error, ValueError.
  rewrite !append_cons. discriminate.
Qed.

Lemma duplicate_not_gap (id : string) (v : Z) :
  DuplicateRegistration id <> VersionGapError v.
Proof.
  unfold DuplicateRegistration, VersionGapError, version_gap_error, ValueError.
  rewrite !append_cons. discriminate.
Qed.

Lemma dict_get_snoc {V} (d : dict V) (k : string) (v : V) :
  dict_contains d k = false -> dict_get (d ++ [(k, v)]) k = Some v.
Proof.
  intros Hc. by rewrite <- dict_set_new, dict_get_set, String.eqb_refl.
Qed.

Lemma int_raise_not_gap (d : string) (e : exn) (v : Z) :
  int d = Raise e -> e <> VersionGapError v.
Proof.
  unfold int. destruct (_ <? _)%nat; [|done]. intros [= <-].
  unfold VersionGapError, version_gap_error, ValueError.
  rewrite !append_cons. discriminate.
Qed.

Lemma env_key_zero (n : string) : env_key n 0 = n +:+ "-v0".
Proof. done. Qed.

Lemma short_digits_within (d : string) :
  (String.length d <=? 4)%nat = true ->
  (String.length d <= int_max_str_digits)%nat.
Proof. intros H%Nat.leb_le. unfold int_max_str_digits. lia. Qed.

End messages.

(** C2, as stated: parsing each of [""], ["foo-v"] and ["foo-v-1"] raises
    [MalformedIdentifier].  The last two are accepted: the hyphen and the
    letters are characters of a name, so they parse as names at version 0. *)
Lemma C2_foo_v_counterexample :
  parse_env_id "foo-v" = Ok ("foo-v"%string, 0) /\
  parse_env_id "foo-v-1" = Ok ("foo-v-1"%string, 0) /\
  ~ (forall id, id ∈ [""; "foo-v"; "foo-v-1"]%string ->
       parse_env_id id = Raise (MalformedIdentifier id)).
Proof.
  split; [by vm_compute|]. split; [by vm_compute|].
  intros H. specialize (H "foo-v"%string).
  assert (Hin : "foo-v"%string ∈ [""; "foo-v"; "foo-v-1"]%string)
    by (apply elem_of_cons; right; apply elem_of_cons; by left).
  apply H in Hin. vm_compute in Hin. discriminate.
Qed.

(** C2, amended: parsing the empty identifier raises [MalformedIdentifier],
    and so do [register] and [make] called with it, in any state and
    without changing it; ["foo-v"] and ["foo-v-1"] parse, as the names
    ["foo-v"] and ["foo-v-1"] at version 0. *)
Theorem C2_malformed (Environment : Type)
    (import_attr : string -> string -> result (constructor Environment)) :
  parse_env_id "" = Raise (MalformedIdentifier "") /\
  (forall entry_point kwargs s,
     register "" entry_point kwargs s = (Raise (MalformedIdentifier ""), s)) /\
  (forall args kwargs s,
     make Environment import_attr "" args kwargs s
     = (Raise (MalformedIdentifier ""), s)) /\
  parse_env_id "foo-v" = Ok ("foo-v"%string, 0) /\
  parse_env_id "foo-v-1" = Ok ("foo-v-1"%string, 0).
Proof.
  split; [done|]. split; [|split; [|by split; vm_compute]].
  - intros. by apply register_malformed.
  - intros. by apply make_malformed.
Qed.

(** C4: called with no keyword but [kwargs], on a registry that [register]
    has built, [register] raises [VersionGapError] exactly when the
    identifier parses to a version other than 0 and no record of the
    registry has the parsed name; and once [n-v0] is registered, [n-v5]
    registers too, whether or not the versions between are there. *)
Theorem C4_version_gap (id entry_point : string) (kwargs : dict pyobj) (s : state) :
  registry_ok (_REGISTRY s) -> accepted kwargs = true ->
  ((exists v, raises (register id entry_point kwargs) s (VersionGapError v)) <->
   (exists n v, parse_env_id id = Ok (n, v) /\ v <> 0 /\ unnamed (_REGISTRY s) n)) /\
  (forall n s1,
     id = n +:+ "-v0" -> n <> EmptyString -> legal n = true ->
     register id entry_point kwargs s = (Ok tt, s1) ->
     forall entry_point5 kwargs5,
       accepted kwargs5 = true ->
       dict_contains (_REGISTRY s1) (n +:+ "-v5") = false ->
       exists s2, register (n +:+ "-v5") entry_point5 kwargs5 s1 = (Ok tt, s2) /\
                  dict_keys (_REGISTRY s2) = dict_keys (_REGISTRY s1) ++ [n +:+ "-v5"]).
Proof.
  intros Hok Hk. split; [split|].
  - intros [v' [s' Hr]].
    destruct (parse_env_id id) as [[n v]|e] eqn:Hp.
    2:{ rewrite (register_malformed _ _ _ _ _ Hp) in Hr.
        assert (He : e = VersionGapError v') by congruence.
        apply parse_env_id_Raise in Hp as [[-> _]|(n & d & _ & _ & _ & _ & Hi)].
        - by apply malformed_not_gap in He.
        - by apply (int_raise_not_gap _ _ v') in Hi. }
    destruct (register_run _ entry_point _ s _ _ Hp Hk) as (o & h' & _ & Hrun).
    rewrite Hrun in Hr. cbv zeta in Hr.
    destruct (dict_contains _ _).
    { assert (He : DuplicateRegistration (env_key n v) = VersionGapError v')
        by congruence.
      by apply duplicate_not_gap in He. }
    destruct (bool_decide _) eqn:Hu; [|done].
    destruct (Z.eqb_spec v 0) as [->|Hv]; [done|].
    exists n, v. split; [done|]. split; [done|]. by apply bool_decide_eq_true in Hu.
  - intros (n & v & Hp & Hv & Hu). exists v.
    destruct (register_run _ entry_point _ s _ _ Hp Hk) as (o & h' & _ & Hrun).
    unfold raises. rewrite Hrun. cbv zeta.
    destruct (dict_contains _ _) eqn:Hc.
    { by destruct (registry_ok_name _ _ _ _ Hok Hp Hc). }
    rewrite bool_decide_eq_true_2 by done.
    rewrite (proj2 (Z.eqb_neq v 0)) by done. by eexists.
  - intros n s1 -> Hn Hl Hr entry_point5 kwargs5 Hk5 Hc5.
    assert (Hp0 : parse_env_id (n +:+ "-v0") = Ok (n, 0))
      by (by apply (parse_env_id_versioned n "0"); [..|apply short_digits_within]).
    assert (Hp5 : parse_env_id (n +:+ "-v5") = Ok (n, 5))
      by (by apply (parse_env_id_versioned n "5"); [..|apply short_digits_within]).
    destruct (register_after (n +:+ "-v0") entry_point kwargs s)
      as (s1' & Hs1 & _ & Hf).
    rewrite Hr in Hs1, Hf. simpl in Hs1, Hf. injection Hs1 as <-.
    destruct Hf as (n' & v' & o & Hp' & _ & _ & _ & _ & Hreg).
    rewrite Hp0 in Hp'. injection Hp' as <- <-.
    destruct (register_run _ entry_point5 _ s1 _ _ Hp5 Hk5) as (o5 & h5 & _ & Hrun).
    rewrite Hrun. cbv zeta. change (env_key n 5) with (n +:+ "-v5").
    rewrite Hc5. rewrite bool_decide_eq_false_2.
    + eexists. split; [done|]. simpl. by rewrite dict_set_new, dict_keys_app.
    + rewrite Hreg. unfold unnamed. rewrite Forall_app, Forall_singleton.
      simpl. tauto.
Qed.

Lemma C4_version_gap_witness :
  registry_ok (_REGISTRY initial_state) /\ accepted [] = true /\
  (exists v, raises (register "n-v5" "envs:CartPole" []) initial_state
               (VersionGapError v)) /\
  (exists s1 s2,
     register "n-v0" "envs:CartPole" [] initial_state = (Ok tt, s1) /\
     register "n-v5" "envs:CartPole" [] s1 = (Ok tt, s2) /\
     dict_keys (_REGISTRY s2) = ["n-v0"; "n-v5"]%string).
Proof.
  split; [apply registry_ok_nil|]. split; [reflexivity|]. split.
  - apply (proj1 (C4_version_gap "n-v5" "envs:CartPole" [] initial_state
                    registry_ok_nil eq_refl)).
    exists "n"%string, 5. split; [by vm_compute|]. split; [lia|apply Forall_nil_2].
  - exists (snd (register "n-v0" "envs:CartPole" [] initial_state)).
    destruct (proj2 (C4_version_gap "n-v0" "envs:CartPole" [] initial_state
                       registry_ok_nil eq_refl)
                "n"%string (snd (register "n-v0" "envs:CartPole" [] initial_state))
                eq_refl ltac:(discriminate) eq_refl ltac:(by vm_compute)
                "envs:CartPole"%string [] eq_refl ltac:(by vm_compute))
      as (s2 & Hr & Hkeys).
    exists s2. split; [by vm_compute|]. split; [exact Hr|].
    rewrite Hkeys. by vm_compute.
Defined.

(** C5: called with no keyword but [kwargs] and an identifier whose
    canonical form is a key of the registry, [register] raises
    [DuplicateRegistration]; afterwards the registry is the one before, with
    its one record under that key, and the objects of the heap are the ones
    before (a dictionary made for the rejected record may have been added).
    More generally, no call of [register] that raises changes the
    registry. *)
Theorem C5_duplicate (id entry_point : string) (kwargs : dict pyobj) (s : state)
    (n : string) (v : Z) (env_id : string) :
  registry_ok (_REGISTRY s) ->
  accepted kwargs = true ->
  parse_env_id id = Ok (n, v) ->
  get_env_id n (Some v) = Ok env_id ->
  dict_contains (_REGISTRY s) env_id = true ->
  (exists s' spec,
     register id entry_point kwargs s
     = (Raise (DuplicateRegistration env_id), s') /\
     _REGISTRY s' = _REGISTRY s /\
     heap s ⊆ heap s' /\
     filter (fun kv => fst kv = env_id) (_REGISTRY s')
     = [(env_id, spec)]) /\
  (forall id' entry_point' kwargs' e s',
     register id' entry_point' kwargs' s = (Raise e, s') ->
     _REGISTRY s' = _REGISTRY s /\ heap s ⊆ heap s').
Proof.
  intros [Hnd _] Hk Hp [-> _]%get_env_id_Ok Hc. split.
  - destruct (register_run _ entry_point _ s _ _ Hp Hk) as (o & h' & Hst & Hrun).
    cbv zeta in Hrun. rewrite Hc in Hrun.
    destruct (dict_contains_get _ _ Hc) as [spec Hg].
    eexists _, spec. split; [exact Hrun|]. split; [done|].
    split; [by apply stored_kwargs_extends in Hst|].
    by apply dict_filter_key.
  - intros id' entry_point' kwargs' e s' Hr.
    by apply register_extends_on_raise in Hr.
Qed.

Lemma C5_duplicate_witness :
  let s := snd (register "cartpole-v0" "envs:CartPole" [] initial_state) in
  registry_ok (_REGISTRY s) /\
  accepted [] = true /\
  parse_env_id "cartpole-v0" = Ok ("cartpole"%string, 0) /\
  get_env_id "cartpole" (Some 0) = Ok "cartpole-v0"%string /\
  dict_contains (_REGISTRY s) "cartpole-v0" = true /\
  exists s',
    register "cartpole-v0" "envs:CartPole" [] s
    = (Raise (DuplicateRegistration "cartpole-v0"), s') /\
    dict_keys (_REGISTRY s') = ["cartpole-v0"%string].
Proof.
  intros s.
  assert (Hok : registry_ok (_REGISTRY s))
    by apply register_preserves_ok, registry_ok_nil.
  split; [exact Hok|]. split; [reflexivity|].
  split; [by vm_compute|]. split; [by vm_compute|]. split; [by vm_compute|].
  destruct (proj1 (C5_duplicate "cartpole-v0" "envs:CartPole" [] s "cartpole" 0
                     "cartpole-v0" Hok eq_refl ltac:(by vm_compute)
                     ltac:(by vm_compute) ltac:(by vm_compute)))
    as (s' & spec & Hr & Hreg & _).
  exists s'. split; [exact Hr|]. rewrite Hreg. by vm_compute.
Defined.

(** C6: an identifier without a version suffix stands for version 0 in both
    operations.  When [register] accepts it, the record is stored under the
    identifier followed by ["-v0"], registering that key again raises
    [DuplicateRegistration], and [make] with the bare identifier gets to the
    construction from that very record, as it does with the key. *)
Theorem C6_default_version (Environment : Type)
    (import_attr : string -> string -> result (constructor Environment))
    (id entry_point : string) (kwargs : dict pyobj) (s s1 : state) :
  parse_env_id id = Ok (id, 0) ->
  register id entry_point kwargs s = (Ok tt, s1) ->
  exists spec,
    dict_get (_REGISTRY s1) (id +:+ "-v0") = Some spec /\
    EnvSpec.id spec = id +:+ "-v0" /\
    EnvSpec.entry_point spec = entry_point /\
    EnvSpec.name spec = id /\
    EnvSpec.version spec = 0 /\
    (forall entry_point' kwargs',
       accepted kwargs' = true ->
       raises (register (id +:+ "-v0") entry_point' kwargs') s1
         (DuplicateRegistration (id +:+ "-v0"))) /\
    (forall args kwargs',
       make Environment import_attr id args kwargs' s1
       = construct Environment import_attr spec args kwargs' s1 /\
       make Environment import_attr (id +:+ "-v0") args kwargs' s1
       = construct Environment import_attr spec args kwargs' s1).
Proof.
  intros Hp Hr.
  destruct (register_after id entry_point kwargs s) as (s1' & Hs1 & _ & Hf).
  rewrite Hr in Hs1, Hf. simpl in Hs1, Hf. injection Hs1 as <-.
  destruct Hf as (n & v & o & Hp' & _ & Hc & _ & _ & Hreg).
  rewrite Hp in Hp'. injection Hp' as <- <-.
  rewrite env_key_zero in Hc, Hreg.
  assert (Hp0 : parse_env_id (id +:+ "-v0") = Ok (id, 0)).
  { rewrite <- env_key_zero. by apply (parse_env_id_canonical id). }
  assert (Hg : dict_get (_REGISTRY s1) (id +:+ "-v0")
               = Some (EnvSpec.Build (id +:+ "-v0") entry_point o id 0))
    by (rewrite Hreg; by apply dict_get_snoc).
  eexists. split; [exact Hg|]. do 4 (split; [done|]). split.
  - intros entry_point' kwargs' Hk'.
    destruct (register_run _ entry_point' _ s1 _ _ Hp0 Hk') as (o' & h' & _ & Hrun).
    cbv zeta in Hrun. rewrite env_key_zero in Hrun.
    unfold dict_contains in Hrun. rewrite Hg in Hrun. by eexists.
  - intros args kwargs'. split.
    + by apply (make_found _ _ _ _ _ _ id 0).
    + by apply (make_found _ _ _ _ _ _ id 0).
Qed.

Lemma C6_default_version_witness :
  parse_env_id "foo" = Ok ("foo"%string, 0) /\
  exists s1,
    register "foo" "envs:CartPole" [] initial_state = (Ok tt, s1) /\
    dict_keys (_REGISTRY s1) = ["foo-v0"%string] /\
    raises (register "foo-v0" "envs:CartPole" []) s1 (DuplicateRegistration "foo-v0") /\
    fst (make _ example_import "foo" [] [] s1) = Ok ([], []).
Proof.
  split; [by vm_compute|].
  exists (snd (register "foo" "envs:CartPole" [] initial_state)).
  destruct (C6_default_version _ example_import "foo" "envs:CartPole" [] initial_state
              (snd (register "foo" "envs:CartPole" [] initial_state))
              ltac:(by vm_compute) ltac:(by vm_compute))
    as (spec & Hg & _ & _ & _ & _ & Hdup & Hmake).
  split; [by vm_compute|]. split; [by vm_compute|].
  split; [by apply Hdup|]. by vm_compute.
Defined.

(** C10, as stated: [register] called with a keyword other than [kwargs]
    raises a [TypeError].  The identifier is parsed before the record is
    built, so with an identifier that does not parse the call raises the
    [ValueError] of the parser instead. *)
Lemma C10_malformed_id_counterexample :
  accepted [("size"%string, PyInt 4)] = false /\
  register "" "envs:CartPole" [("size"%string, PyInt 4)] initial_state
  = (Raise (MalformedIdentifier ""), initial_state) /\
  exn_class (MalformedIdentifier "") = "ValueError"%string /\
  ~ (exists msg s',
       register "" "envs:CartPole" [("size"%string, PyInt 4)] initial_state
       = (Raise (TypeError msg), s')).
Proof.
  split; [reflexivity|]. split; [reflexivity|]. split; [reflexivity|].
  intros (msg & s' & H). vm_compute in H. discriminate.
Qed.

(** C10, amended: with an identifier that parses, [register] called with a
    keyword other than [kwargs] raises a [TypeError] and leaves the state
    as it was; a call that registers has no keyword but [kwargs], and the
    record it stores keeps the object passed as [kwargs], or a new empty
    dictionary when there is none. *)
Theorem C10_extra_keyword (id entry_point : string) (kwargs : dict pyobj)
    (s : state) (n : string) (v : Z) :
  parse_env_id id = Ok (n, v) ->
  (accepted kwargs = false ->
   exists msg, register id entry_point kwargs s = (Raise (TypeError msg), s)) /\
  (forall s',
     register id entry_point kwargs s = (Ok tt, s') ->
     accepted kwargs = true /\
     exists env_id spec,
       get_env_id n (Some v) = Ok env_id /\
       dict_get (_REGISTRY s') env_id = Some spec /\
       stored_kwargs (dict_get kwargs "kwargs") s (EnvSpec.kwargs spec) (heap s')).
Proof.
  intros Hp. split.
  - intros Hk. by apply (register_rejected _ _ _ _ n v).
  - intros s' Hr.
    destruct (register_after id entry_point kwargs s) as (s1 & Hs1 & _ & Hf).
    rewrite Hr in Hs1, Hf. simpl in Hs1, Hf. injection Hs1 as <-.
    destruct Hf as (n' & v' & o & Hp' & Hk & Hc & _ & Hst & Hreg).
    rewrite Hp in Hp'. injection Hp' as <- <-. split; [done|].
    eexists (env_key n v), _.
    split; [by apply (parse_env_id_canonical id)|].
    split; [rewrite Hreg; by apply dict_get_snoc|done].
Qed.

Lemma C10_extra_keyword_witness :
  parse_env_id "cartpole-v0" = Ok ("cartpole"%string, 0) /\
  accepted [("size"%string, PyInt 4)] = false /\
  exists msg,
    register "cartpole-v0" "envs:CartPole" [("size"%string, PyInt 4)] initial_state
    = (Raise (TypeError msg), initial_state).
Proof.
  split; [by vm_compute|]. split; [reflexivity|].
  apply (proj1 (C10_extra_keyword "cartpole-v0" "envs:CartPole"
                  [("size"%string, PyInt 4)] initial_state "cartpole" 0
                  ltac:(by vm_compute))).
  reflexivity.
Defined.

(** ** Instantiation and listing *)

Section occurrences.

Lemma occurs_in_refl (s : string) : occurs_in s s.
Proof. exists EmptyString, EmptyString. by rewrite append_nil_r. Qed.

Lemma occurs_in_app_l (sub a s : string) : occurs_in sub s -> occurs_in sub (a +:+ s).
Proof.
  intros (x & y & ->). exists (a +:+ x), y. by rewrite append_assoc.
Qed.

Lemma occurs_in_app_r (sub s b : string) : occurs_in sub s -> occurs_in sub (s +:+ b).
Proof.
  intros (x & y & ->). exists x, (y +:+ b). by rewrite !append_assoc.
Qed.

Lemma occurs_in_concat (sep x : string) (l : list string) :
  x ∈ l -> occurs_in x (String.concat sep l).
Proof.
  induction l as [|y l IH]; [by intros ?%elem_of_nil|].
  intros [->|Hin]%elem_of_cons; simpl.
  - destruct l; [apply occurs_in_refl|]. apply occurs_in_app_r, occurs_in_refl.
  - destruct l as [|z l]; [by apply elem_of_nil in Hin|].
    by apply occurs_in_app_l, occurs_in_app_l, IH.
Qed.

(** Every registered identifier is on a line of its own in the message. *)
Lemma unregistered_lists (env_id k : string) (registry : list string) :
  k ∈ registry ->
  occurs_in ("- " +:+ k) (exn_msg (UnregisteredEnvironment env_id registry)).
Proof.
  intros Hin. unfold UnregisteredEnvironment, ValueError. cbn [exn_msg].
  do 5 apply occurs_in_app_l. apply occurs_in_app_r.
  apply occurs_in_concat, list_elem_of_fmap. by exists k.
Qed.

End occurrences.

(** C7: when [make] returns an environment, it is what the constructor
    resolved from the record's entry point returns for the positional
    arguments of the call and the record's dictionary updated with the
    keywords of the call, in which every key of the call carries the value
    of the call and every other key the stored value.  The record and its
    dictionary are as before, so [make] without keywords then calls the
    constructor with the stored dictionary. *)
Theorem C7_merged_kwargs (Environment : Type)
    (import_attr : string -> string -> result (constructor Environment))
    (id : string) (args : list pyobj) (kwargs : dict pyobj) (s s' : state)
    (env : Environment) :
  NoDup (dict_keys kwargs) ->
  make Environment import_attr id args kwargs s = (Ok env, s') ->
  exists env_id spec l defaults env_fn,
    canonical id = Some env_id /\
    dict_get (_REGISTRY s) env_id = Some spec /\
    EnvSpec.kwargs spec = PyRef l /\
    heap s !! l = Some defaults /\
    load Environment import_attr (EnvSpec.entry_point spec) = Ok env_fn /\
    env_fn args (dict_update defaults kwargs) = Ok env /\
    (forall k,
       dict_get (dict_update defaults kwargs) k =
         match dict_get kwargs k with
         | Some x => Some x
         | None => dict_get defaults k
         end) /\
    _REGISTRY s' = _REGISTRY s /\
    heap s ⊆ heap s' /\
    heap s' !! l = Some defaults /\
    fst (make Environment import_attr id args [] s') = env_fn args defaults.
Proof.
  intros Hnd Hm.
  destruct (parse_env_id id) as [[n v]|e] eqn:Hp.
  2:{ by rewrite (make_malformed _ _ _ _ _ _ _ Hp) in Hm. }
  destruct (dict_get (_REGISTRY s) (env_key n v)) as [spec|] eqn:Hg.
  2:{ rewrite (make_unregistered _ _ _ _ _ _ _ _ Hp) in Hm; [done|].
      unfold dict_contains. by rewrite Hg. }
  rewrite (make_found _ _ _ _ _ _ _ _ _ Hp Hg) in Hm.
  destruct (EnvSpec.kwargs spec) as [| | |l] eqn:Hk;
    try (unfold construct in Hm; rewrite Hk in Hm; discriminate Hm).
  destruct (heap s !! l) as [defaults|] eqn:Hl.
  2:{ unfold construct in Hm. rewrite Hk in Hm. unfold copy in Hm.
      rewrite !bind_run in Hm. unfold deref in Hm. by rewrite Hl in Hm. }
  rewrite (construct_run _ _ _ _ _ _ _ _ Hk Hl) in Hm.
  destruct (load _ _ _) as [env_fn|e] eqn:Hload; [|done].
  injection Hm as Henv <-.
  set (s' := State (_REGISTRY s)
               (<[fresh (dom (heap s)) := dict_update defaults kwargs]> (heap s))).
  exists (env_key n v), spec, l, defaults, env_fn.
  split; [by apply canonical_parse|]. do 5 (split; [done|]).
  split; [intros k; by apply dict_get_update|]. split; [done|].
  pose proof (extends_alloc s (dict_update defaults kwargs)) as [_ Hsub].
  split; [done|].
  assert (Hl' : heap s' !! l = Some defaults) by (by apply (lookup_weaken _ _ _ _ Hl)).
  split; [done|].
  assert (Hg' : dict_get (_REGISTRY s') (env_key n v) = Some spec) by done.
  rewrite (make_found _ _ _ _ _ s' _ _ _ Hp Hg').
  rewrite (construct_run _ _ _ _ _ s' _ _ Hk Hl'). simpl. by rewrite Hload.
Qed.

Lemma C7_merged_kwargs_witness :
  let kwargs := [("size"%string, PyInt 8); ("seed"%string, PyInt 1)] in
  let s := snd (register "cartpole-v0" "envs:CartPole" [("kwargs"%string, PyRef 0%nat)]
                  (State [] example_heap)) in
  NoDup (dict_keys kwargs) /\
  make _ example_import "cartpole" [PyStr "x"] kwargs s
  = (Ok ([PyStr "x"], [("size"%string, PyInt 8); ("seed"%string, PyInt 1)]),
     snd (make _ example_import "cartpole" [PyStr "x"] kwargs s)) /\
  exists s',
    _REGISTRY s' = _REGISTRY s /\
    heap s' !! 0%nat = Some [("size"%string, PyInt 4)] /\
    fst (make _ example_import "cartpole" [PyStr "x"] [] s')
    = Ok ([PyStr "x"], [("size"%string, PyInt 4)]).
Proof.
  intros kwargs s.
  assert (Hnd : NoDup (dict_keys kwargs)).
  { apply NoDup_cons. split; [|apply NoDup_singleton].
    intros [?|[]%elem_of_nil]%elem_of_cons. discriminate. }
  assert (Hm : make _ example_import "cartpole" [PyStr "x"] kwargs s
               = (Ok ([PyStr "x"], [("size"%string, PyInt 8); ("seed"%string, PyInt 1)]),
                  snd (make _ example_import "cartpole" [PyStr "x"] kwargs s)))
    by (by vm_compute).
  split; [exact Hnd|]. split; [exact Hm|].
  destruct (C7_merged_kwargs _ example_import "cartpole" [PyStr "x"] kwargs s _ _ Hnd Hm)
    as (env_id & spec & l & defaults & env_fn & Hc & Hg & Hk & Hl & Hload & _ & _
        & Hreg & _ & Hl' & Hagain).
  exists (snd (make _ example_import "cartpole" [PyStr "x"] kwargs s)).
  split; [exact Hreg|]. split; [by vm_compute|]. by vm_compute.
Defined.

(** C8: with an identifier whose canonical form is not a key of the
    registry, [make] raises [UnregisteredEnvironment], a [ValueError] whose
    message has a line for every identifier that [registered_environments]
    returns, and the state is as it was. *)
Theorem C8_unregistered (Environment : Type)
    (import_attr : string -> string -> result (constructor Environment))
    (id : string) (args : list pyobj) (kwargs : dict pyobj) (s : state)
    (n : string) (v : Z) (env_id : string) :
  parse_env_id id = Ok (n, v) ->
  get_env_id n (Some v) = Ok env_id ->
  dict_contains (_REGISTRY s) env_id = false ->
  exists e ids,
    make Environment import_attr id args kwargs s = (Raise e, s) /\
    registered_environments s = (Ok ids, s) /\
    e = UnregisteredEnvironment env_id ids /\
    exn_class e = "ValueError"%string /\
    Forall (fun k => occurs_in ("- " +:+ k) (exn_msg e)) ids.
Proof.
  intros Hp [-> _]%get_env_id_Ok Hc. eexists _, (dict_keys (_REGISTRY s)).
  split; [by apply make_unregistered|]. split; [done|]. split; [done|].
  split; [done|]. apply Forall_forall. intros k Hk. by apply unregistered_lists.
Qed.

Lemma C8_unregistered_witness :
  let s := snd (register "cartpole-v0" "envs:CartPole" [] initial_state) in
  parse_env_id "unknown-v0" = Ok ("unknown"%string, 0) /\
  get_env_id "unknown" (Some 0) = Ok "unknown-v0"%string /\
  dict_contains (_REGISTRY s) "unknown-v0" = false /\
  exists e,
    make _ example_import "unknown-v0" [] [] s = (Raise e, s) /\
    occurs_in "- cartpole-v0" (exn_msg e).
Proof.
  intros s. split; [by vm_compute|]. split; [by vm_compute|].
  split; [by vm_compute|].
  destruct (C8_unregistered _ example_import "unknown-v0" [] [] s "unknown" 0
              "unknown-v0" ltac:(by vm_compute) ltac:(by vm_compute)
              ltac:(by vm_compute))
    as (e & ids & Hm & Hids & _ & _ & Hall).
  exists e. split; [exact Hm|].
  assert (Hin : "cartpole-v0"%string ∈ ids).
  { assert (ids = ["cartpole-v0"%string]) as -> by (vm_compute in Hids; congruence).
    by left. }
  exact (proj1 (Forall_forall _ _) Hall _ Hin).
Defined.

(** C9: after any run of calls of [register], [make] and
    [registered_environments] from an empty registry,
    [registered_environments] returns the canonical identifiers of the
    calls of [register] that succeeded, in the order of those calls; these
    are the [id]s of the records of the registry, each once, and the state
    is as it was. *)
Theorem C9_registered_environments (Environment : Type)
    (import_attr : string -> string -> result (constructor Environment))
    (cs : list call) (h : gmap loc (dict pyobj)) :
  let s := after_all Environment import_attr cs (State [] h) in
  let ids := registered_by_all Environment import_attr cs (State [] h) in
  registered_environments s = (Ok ids, s) /\
  ids = map (fun kv => EnvSpec.id (snd kv)) (_REGISTRY s) /\
  NoDup ids.
Proof.
  intros s ids.
  assert (Hkeys : dict_keys (_REGISTRY s) = ids)
    by (unfold s, ids; by rewrite after_all_keys).
  assert (Hok : registry_ok (_REGISTRY s))
    by (apply after_all_ok, registry_ok_nil).
  destruct Hok as [Hnd Hrec].
  split; [unfold registered_environments; rewrite bind_run; simpl; by rewrite Hkeys|].
  split; [|by rewrite <- Hkeys].
  rewrite <- Hkeys. unfold dict_keys. apply map_ext_Forall.
  apply (Forall_impl _ _ _ Hrec). by intros kv [-> _].
Qed.

Example registered_environments_in_order :
  fst (registered_environments
         (after_all _ example_import
            [CallRegister "b" "envs:CartPole" [];
             CallRegister "a-v0" "envs:CartPole" [];
             CallRegister "a-v3" "envs:CartPole" [("size"%string, PyInt 4)];
             CallMake "a" [] [];
             CallRegister "b-v0" "envs:CartPole" [];
             CallRegister "c-v1" "envs:CartPole" [];
             CallRegister "a-v3" "envs:CartPole" []]
            initial_state))
  = Ok ["b-v0"; "a-v0"; "a-v3"]%string.
Proof. by vm_compute. Qed.

(** ** Further properties of the identifier grammar *)

Lemma legal_app (a b : string) : legal (a +:+ b) = legal a && legal b.
Proof. apply forall_chars_app. Qed.

Lemma is_digits_legal (d : string) : is_digits d = true -> legal d = true.
Proof.
  unfold is_digits. rewrite andb_true_iff. intros [_ Hd].
  by apply (forall_chars_impl _ _ _ is_name_char_digit).
Qed.

Lemma parse_env_id_legal (id n : string) (v : Z) :
  parse_env_id id = Ok (n, v) -> id <> EmptyString /\ legal id = true.
Proof.
  intros (Hn & Hl & [[-> _]|(d & -> & Hd & _)])%parse_env_id_Ok; [done|].
  split; [by destruct n|].
  rewrite !legal_app, Hl, (is_digits_legal _ Hd). done.
Qed.

Lemma parse_env_id_nonneg (id n : string) (v : Z) :
  parse_env_id id = Ok (n, v) -> 0 <= v.
Proof.
  by intros [Hv _]%parse_env_id_digits.
Qed.

Lemma int_raise_not_malformed (d : string) (e : exn) (id : string) :
  int d = Raise e -> e <> MalformedIdentifier id.
Proof.
  unfold int. destruct (_ <? _)%nat; [|done]. intros [= <-].
  unfold MalformedIdentifier, ValueError. rewrite !append_cons. discriminate.
Qed.

(** Two strings that end in a character that is no digit followed by
    digits only are cut at the same place. *)
Lemma last_nondigit_unique (x y : string) (c c' : ascii) (ds d : string) :
  category_digit c = false -> category_digit c' = false ->
  forall_chars category_digit ds = true -> forall_chars category_digit d = true ->
  x +:+ String c ds = y +:+ String c' d ->
  x = y /\ c = c' /\ ds = d.
Proof.
  intros Hc Hc' Hds Hd. revert y.
  induction x as [|a x IH]; intros [|b y] E; norm_append in E.
  - by injection E as -> ->.
  - injection E as -> ->. rewrite forall_chars_app in Hds. simpl in Hds.
    rewrite Hc' in Hds. by rewrite andb_false_r in Hds.
  - injection E as -> <-. rewrite forall_chars_app in Hd. simpl in Hd.
    rewrite Hc in Hd. by rewrite andb_false_r in Hd.
  - injection E as -> E. apply IH in E as (-> & -> & ->). done.
Qed.

Lemma decimal_negative (v : Z) :
  v < 0 ->
  exists ds, decimal v = String "-" ds /\ forall_chars category_digit ds = true.
Proof.
  intros Hv. destruct v as [|p|p]; [lia..|].
  exists (NilEmpty.string_of_uint (Pos.to_uint p)).
  split; [done|]. apply digits_string_of_uint.
Qed.

(** X1: [parse_env_id] raises the [ValueError] that names the identifier
    exactly on the empty string and on strings with a character outside
    [[\w:.-]] (a newline at the end included).  The one other exception
    is that of [int], for version digits beyond the limit.  A result is
    returned exactly for the non-empty strings of legal characters whose
    version digits, if any, are within the limit. *)
Theorem X1_parse_raises_iff (id : string) :
  (parse_env_id id = Raise (MalformedIdentifier id) <->
   id = EmptyString \/ legal id = false) /\
  (forall e, parse_env_id id = Raise e ->
     e = MalformedIdentifier id \/
     exists n d, id = n +:+ "-v" +:+ d /\ n <> EmptyString /\ legal n = true /\
                 is_digits d = true /\
                 (int_max_str_digits < String.length d)%nat /\
                 int d = Raise e) /\
  ((exists n v, parse_env_id id = Ok (n, v)) <->
   id <> EmptyString /\ legal id = true /\
   forall n d, n <> EmptyString -> is_digits d = true ->
               id = n +:+ "-v" +:+ d ->
               (String.length d <= int_max_str_digits)%nat).
Proof.
  split; [split|split; [|split]].
  - intros [[_ ?]|(n & d & _ & _ & _ & _ & Hi)]%parse_env_id_Raise; [done|].
    by apply (int_raise_not_malformed _ _ id) in Hi.
  - apply parse_env_id_illegal.
  - intros e [[? _]|(n & d & ? & ? & ? & ? & Hi)]%parse_env_id_Raise; [by left|].
    right. exists n, d. do 4 (split; [done|]). split; [|done].
    by apply int_Raise in Hi.
  - intros (n & v & Hp). apply parse_env_id_legal in Hp as Hl.
    destruct Hl as [Hne Hl]. split; [done|]. split; [done|].
    intros n' d' Hn' Hd' ->.
    rewrite !legal_app in Hl. apply andb_true_iff in Hl as [Hl' _].
    rewrite parse_env_id_suffixed in Hp by done.
    destruct (int d') as [v'|e] eqn:Hi; [|done]. by apply int_Ok in Hi as [_ ?].
  - intros (Hne & Hl & Hlen).
    destruct (parse_env_id id) as [[n v]|e] eqn:Hp; [eauto|].
    apply parse_env_id_Raise in Hp as [[_ [?|?]]|(n & d & -> & Hn & _ & Hd & Hi)];
      [congruence..|].
    apply int_Raise in Hi. specialize (Hlen n d Hn Hd eq_refl). lia.
Qed.

Lemma X1_parse_raises_iff_witness :
  parse_env_id ("a-v1" +:+ newline) = Raise (MalformedIdentifier ("a-v1" +:+ newline)) /\
  parse_env_id "a b" = Raise (MalformedIdentifier "a b") /\
  exists n v, parse_env_id "ns:pkg.env-v12" = Ok (n, v).
Proof.
  split; [|split].
  - apply (proj1 (X1_parse_raises_iff ("a-v1" +:+ newline))). by right.
  - apply (proj1 (X1_parse_raises_iff "a b")). by right.
  - apply (proj2 (proj2 (proj2 (X1_parse_raises_iff "ns:pkg.env-v12")))).
    split; [discriminate|]. split; [reflexivity|].
    intros n d _ _ E. apply (f_equal String.length) in E.
    rewrite !length_append in E. simpl in E. unfold int_max_str_digits. lia.
Defined.

(** X2: what [parse_env_id] returns is a non-empty name of legal
    characters and a version that is not negative; [get_env_id] prints an
    identifier from them, which parses to the same pair, so printing and
    parsing once more changes nothing. *)
Theorem X2_parse_result (id n : string) (v : Z) :
  parse_env_id id = Ok (n, v) ->
  n <> EmptyString /\ legal n = true /\ 0 <= v /\
  exists env_id,
    get_env_id n (Some v) = Ok env_id /\
    parse_env_id env_id = Ok (n, v) /\
    canonical env_id = Some env_id.
Proof.
  intros Hp. destruct (parse_env_id_canonical _ _ _ Hp) as [Hk Hc].
  apply parse_env_id_nonneg in Hp as Hv.
  apply parse_env_id_Ok in Hp as (Hn & Hl & _).
  do 3 (split; [done|]). exists (env_key n v).
  do 2 (split; [done|]). by apply canonical_parse.
Qed.

Lemma X2_parse_result_witness :
  parse_env_id "a-v1-v007" = Ok ("a-v1"%string, 7) /\
  exists env_id,
    get_env_id "a-v1" (Some 7) = Ok env_id /\ canonical env_id = Some env_id.
Proof.
  split; [by vm_compute|].
  destruct (X2_parse_result "a-v1-v007" "a-v1" 7 ltac:(by vm_compute))
    as (_ & _ & _ & env_id & Hk & _ & Hc).
  by exists env_id.
Defined.

(** X3: two identifiers that parse get the same registry key exactly when
    they parse to the same name and the same version. *)
Theorem X3_same_key_iff (id1 id2 n1 n2 : string) (v1 v2 : Z) :
  parse_env_id id1 = Ok (n1, v1) ->
  parse_env_id id2 = Ok (n2, v2) ->
  (get_env_id n1 (Some v1) = get_env_id n2 (Some v2) <-> n1 = n2 /\ v1 = v2).
Proof.
  intros [Hk1 Hp1]%parse_env_id_canonical [Hk2 Hp2]%parse_env_id_canonical. split.
  - rewrite Hk1, Hk2. intros [= E]. rewrite E in Hp1. rewrite Hp1 in Hp2.
    by injection Hp2 as -> ->.
  - by intros [-> ->].
Qed.

Lemma X3_same_key_iff_witness :
  parse_env_id "a-v007" = Ok ("a"%string, 7) /\
  parse_env_id "a-v7" = Ok ("a"%string, 7) /\
  get_env_id "a" (Some 7) = get_env_id "a" (Some 7).
Proof.
  split; [by vm_compute|]. split; [by vm_compute|].
  by apply (proj2 (X3_same_key_iff "a-v007" "a-v7" "a" "a" 7 7
                     ltac:(by vm_compute) ltac:(by vm_compute))).
Defined.

(** X4: the digits of a version, when [int] takes them, are read as a
    number, so the key of an identifier written with leading zeros is the
    one written without. *)
Theorem X4_leading_zeros (n d : string) :
  n <> EmptyString -> legal n = true -> is_digits d = true ->
  (String.length d <= int_max_str_digits)%nat ->
  exists v text,
    int d = Ok v /\ str v = Ok text /\
    canonical (n +:+ "-v" +:+ d) = Some (n +:+ "-v" +:+ text) /\
    canonical (n +:+ "-v" +:+ text) = Some (n +:+ "-v" +:+ text).
Proof.
  intros Hn Hl Hd Hlen. exists (decimal_value d), (decimal (decimal_value d)).
  pose proof (decimal_value_nonneg _ Hd) as Hv.
  pose proof (digit_count_decimal_value _ Hd) as Hc.
  split; [by apply int_within|]. split; [apply str_within; lia|].
  split.
  - by apply canonical_parse, parse_env_id_versioned.
  - apply (canonical_parse (env_key n (decimal_value d))).
    apply parse_env_key; [done..|lia].
Qed.

Lemma X4_leading_zeros_witness :
  "cartpole"%string <> EmptyString /\ legal "cartpole" = true /\
  is_digits "0012" = true /\
  (String.length "0012" <= int_max_str_digits)%nat /\
  canonical "cartpole-v0012" = Some "cartpole-v12"%string.
Proof.
  assert (Hlen : (String.length "0012" <= int_max_str_digits)%nat)
    by (apply Nat.leb_le; reflexivity).
  split; [discriminate|]. split; [reflexivity|]. split; [reflexivity|].
  split; [exact Hlen|].
  destruct (X4_leading_zeros "cartpole" "0012" ltac:(discriminate) eq_refl eq_refl
              Hlen) as (v & text & Hi & Hs & Hc & _).
  assert (v = 12) as -> by (vm_compute in Hi; congruence).
  assert (text = "12"%string) as -> by (vm_compute in Hs; congruence).
  exact Hc.
Defined.

(** X5: [get_env_id] prints a negative version that is within the limit
    of [str] as it is, and the result does not parse back to it: the minus
    sign keeps the digits from being a version, so the whole string is a
    name at version 0. *)
Theorem X5_negative_version (n : string) (v : Z) :
  n <> EmptyString -> legal n = true -> v < 0 ->
  (digit_count v <= int_max_str_digits)%nat ->
  exists text,
    get_env_id n (Some v) = Ok text /\ parse_env_id text = Ok (text, 0).
Proof.
  intros Hn Hl Hv Hc. exists (env_key n v).
  split; [by apply get_env_id_within|].
  destruct (decimal_negative v Hv) as (ds & Hs & Hds).
  unfold env_key. rewrite Hs.
  apply parse_env_id_unversioned.
  - by destruct n.
  - assert (Hlds : legal ds = true)
      by apply (forall_chars_impl _ _ _ is_name_char_digit Hds).
    rewrite !legal_app, Hl. change (legal "-v") with true.
    rewrite legal_cons. change (is_name_char "-") with true.
    by rewrite Hlds.
  - intros p d Hp Hd E. unfold is_digits in Hd.
    apply andb_true_iff in Hd as [_ Hd].
    assert (E' : (n +:+ "-v") +:+ String "-" ds = (p +:+ "-") +:+ String "v" d)
      by (rewrite !append_assoc; exact E).
    by apply last_nondigit_unique in E' as (_ & ? & _).
Qed.

Lemma X5_negative_version_witness :
  "cartpole"%string <> EmptyString /\ legal "cartpole" = true /\ -3 < 0 /\
  (digit_count (-3) <= int_max_str_digits)%nat /\
  exists text,
    get_env_id "cartpole" (Some (-3)) = Ok text /\
    parse_env_id text = Ok (text, 0).
Proof.
  assert (Hc : (digit_count (-3) <= int_max_str_digits)%nat)
    by (apply Nat.leb_le; reflexivity).
  split; [discriminate|]. split; [reflexivity|]. split; [lia|].
  split; [exact Hc|].
  exact (X5_negative_version "cartpole" (-3) ltac:(discriminate) eq_refl
           ltac:(lia) Hc).
Defined.

(** ** Further properties of [load] *)

Lemma split_length (sep : ascii) (s : string) :
  length (split sep s) = S (count_char sep s).
Proof.
  induction s as [|c s IH]; [done|]. simpl.
  destruct (Ascii.eqb c sep); simpl; [by rewrite IH|].
  destruct (split sep s); simpl in *; congruence.
Qed.

Lemma split_no_sep (sep : ascii) (s : string) :
  count_char sep s = 0%nat -> split sep s = [s].
Proof.
  induction s as [|c s IH]; [done|]. simpl.
  destruct (Ascii.eqb c sep); [done|]. simpl. intros ->%IH. done.
Qed.

Lemma split_app (sep : ascii) (m a : string) :
  count_char sep m = 0%nat ->
  split sep (m +:+ String sep a) = m :: split sep a.
Proof.
  induction m as [|c m IH]; norm_append; simpl.
  - by rewrite Ascii.eqb_refl.
  - destruct (Ascii.eqb c sep); [done|]. simpl. intros ->%IH. done.
Qed.

Lemma split_single (sep : ascii) (s a : string) :
  split sep s = [a] -> s = a /\ count_char sep a = 0%nat.
Proof.
  intros E. pose proof (split_length sep s) as Hlen. rewrite E in Hlen.
  injection Hlen as Hlen. rewrite split_no_sep in E by done.
  injection E as <-. done.
Qed.

Lemma split_pair (sep : ascii) (s m a : string) :
  split sep s = [m; a] ->
  s = m +:+ String sep a /\ count_char sep m = 0%nat /\ count_char sep a = 0%nat.
Proof.
  revert m. induction s as [|c s IH]; intros m; [done|]. simpl.
  destruct (Ascii.eqb_spec c sep) as [->|Hc].
  - intros [= <- [-> Ha]%split_single]. done.
  - destruct (split sep s) as [|h t] eqn:Hs; [done|].
    intros [= <- ->]. destruct (IH h eq_refl) as (-> & Hh & Ha).
    split; [done|]. split; [|done]. simpl.
    by rewrite (proj2 (Ascii.eqb_neq c sep) Hc).
Qed.

(** X6: [load] goes to the module system only with an entry point that
    has exactly one colon, and then with the text before and the text
    after it; an entry point without a colon and one with several raise
    the [ValueError] of the unpacking. *)
Theorem X6_load_colons (Environment : Type)
    (import_attr : string -> string -> result (constructor Environment))
    (name : string) :
  (count_char ":" name = 1%nat ->
   exists mod_name attr_name,
     name = mod_name +:+ ":" +:+ attr_name /\
     count_char ":" mod_name = 0%nat /\ count_char ":" attr_name = 0%nat /\
     load Environment import_attr name = import_attr mod_name attr_name) /\
  (count_char ":" name = 0%nat ->
   load Environment import_attr name
   = Raise (ValueError "not enough values to unpack (expected 2, got 1)")) /\
  ((1 < count_char ":" name)%nat ->
   load Environment import_attr name
   = Raise (ValueError "too many values to unpack (expected 2)")).
Proof.
  pose proof (split_length ":" name) as Hlen. unfold load.
  split; [|split]; intros Hc.
  - rewrite Hc in Hlen.
    destruct (split ":" name) as [|m [|a [|x l]]] eqn:Hs; try done.
    apply split_pair in Hs as (-> & Hm & Ha). by exists m, a.
  - rewrite Hc in Hlen. by destruct (split ":" name) as [|m [|a l]].
  - destruct (split ":" name) as [|m [|a [|x l]]]; simpl in Hlen; try done; lia.
Qed.

Lemma X6_load_colons_witness :
  count_char ":" "jumanji.environments:Snake" = 1%nat /\
  exists mod_name attr_name,
    "jumanji.environments:Snake"%string = mod_name +:+ ":" +:+ attr_name /\
    load _ example_import "jumanji.environments:Snake"
    = example_import mod_name attr_name.
Proof.
  split; [reflexivity|].
  destruct (proj1 (X6_load_colons _ example_import "jumanji.environments:Snake")
              eq_refl) as (m & a & E & _ & _ & Hload).
  by exists m, a.
Defined.

(** ** Further properties of [register] and [make] *)

Lemma register_stores (id entry_point : string) (kwargs : dict pyobj) (s s1 : state) :
  register id entry_point kwargs s = (Ok tt, s1) ->
  exists n v o,
    parse_env_id id = Ok (n, v) /\
    stored_kwargs (dict_get kwargs "kwargs") s o (heap s1) /\
    dict_get (_REGISTRY s1) (env_key n v)
    = Some (EnvSpec.Build (env_key n v) entry_point o n v).
Proof.
  intros Hr.
  destruct (register_after id entry_point kwargs s) as (s1' & Hs1 & _ & Hf).
  rewrite Hr in Hs1, Hf. simpl in Hs1, Hf. injection Hs1 as <-.
  destruct Hf as (n & v & o & Hp & _ & Hc & _ & Hst & Hreg).
  exists n, v, o. split; [done|]. split; [done|].
  rewrite Hreg. by apply dict_get_snoc.
Qed.

Lemma make_result (Environment : Type)
    (import_attr : string -> string -> result (constructor Environment))
    (id : string) (args : list pyobj) (kwargs : dict pyobj) (s : state)
    (n : string) (v : Z) (spec : EnvSpec.t) (l : loc) (defaults : dict pyobj) :
  parse_env_id id = Ok (n, v) ->
  dict_get (_REGISTRY s) (env_key n v) = Some spec ->
  EnvSpec.kwargs spec = PyRef l ->
  heap s !! l = Some defaults ->
  make Environment import_attr id args kwargs s
  = (instantiate Environment import_attr (EnvSpec.entry_point spec) args
       (dict_update defaults kwargs),
     State (_REGISTRY s)
       (<[fresh (dom (heap s)) := dict_update defaults kwargs]> (heap s))).
Proof.
  intros Hp Hg Hk Hl.
  by rewrite (make_found _ _ _ _ _ _ _ _ _ Hp Hg), (construct_run _ _ _ _ _ _ _ _ Hk Hl).
Qed.

Lemma dict_update_app {V} (d other : dict V) :
  NoDup (dict_keys d ++ dict_keys other) -> dict_update d other = d ++ other.
Proof.
  unfold dict_update. revert d.
  induction other as [|[k v] other IH]; intros d Hnd; simpl.
  - by rewrite app_nil_r.
  - assert (Hk : dict_contains d k = false).
    { apply dict_contains_false. intros Hin.
      apply NoDup_app in Hnd as (_ & Hnd & _). apply (Hnd k Hin). by left. }
    rewrite dict_set_new by done. rewrite IH.
    + by rewrite <- app_assoc.
    + rewrite dict_keys_app. simpl. by rewrite <- app_assoc.
Qed.

Lemma unnamed_snoc (registry : dict EnvSpec.t) (n : string) (kv : string * EnvSpec.t) :
  EnvSpec.name (snd kv) = n -> ~ unnamed (registry ++ [kv]) n.
Proof.
  intros Hn Hu. unfold unnamed in Hu. apply Forall_app in Hu as [_ Hu].
  rewrite Forall_singleton in Hu. by apply Hu.
Qed.

(** A property of the registry that holds when a record is put behind it
    holds after every run of calls. *)
Lemma after_all_invariant (Environment : Type)
    (import_attr : string -> string -> result (constructor Environment))
    (P : dict EnvSpec.t -> Prop) :
  (forall registry n v entry_point o,
     P registry ->
     n <> EmptyString -> legal n = true -> 0 <= v ->
     (digit_count v <= int_max_str_digits)%nat ->
     dict_contains registry (env_key n v) = false ->
     (unnamed registry n -> v = 0) ->
     P (registry ++ [(env_key n v,
                      EnvSpec.Build (env_key n v) entry_point o n v)])) ->
  forall cs s, P (_REGISTRY s) ->
               P (_REGISTRY (after_all Environment import_attr cs s)).
Proof.
  intros Hstep cs. induction cs as [|c cs IH]; intros s HP; [done|].
  simpl. apply IH. destruct c as [id entry_point kwargs|id args kwargs|]; simpl.
  - destruct (register_after id entry_point kwargs s) as (s1 & Hs1 & _ & Hf).
    rewrite Hs1. simpl. destruct (fst _).
    + destruct Hf as (n & v & o & Hp & _ & Hc & Hu & _ & ->).
      destruct (parse_env_id_digits _ _ _ Hp) as [Hv Hd].
      apply parse_env_id_Ok in Hp as (Hn & Hl & _).
      by apply Hstep.
    + by rewrite Hf.
  - by destruct (make_extends Environment import_attr id args kwargs s) as [-> _].
  - done.
Qed.

(** X7: whatever it returns or raises, [make] leaves the registry as it
    is and every dictionary object with the items it had. *)
Theorem X7_make_preserves (Environment : Type)
    (import_attr : string -> string -> result (constructor Environment))
    (id : string) (args : list pyobj) (kwargs : dict pyobj) (s : state) :
  _REGISTRY (snd (make Environment import_attr id args kwargs s)) = _REGISTRY s /\
  (forall l d, heap s !! l = Some d ->
     heap (snd (make Environment import_attr id args kwargs s)) !! l = Some d).
Proof.
  destruct (make_extends Environment import_attr id args kwargs s) as [Hr Hh].
  split; [done|]. intros l d Hl. by apply (lookup_weaken _ _ _ _ Hl).
Qed.

(** X8: for a registered identifier whose record holds a dictionary,
    [make] returns what the resolved constructor returns for the
    positional arguments and the updated copy, and raises what it raises;
    when the entry point does not resolve, [make] raises the resolver's
    exception as it is. *)
Theorem X8_make_result (Environment : Type)
    (import_attr : string -> string -> result (constructor Environment))
    (id : string) (args : list pyobj) (kwargs : dict pyobj) (s : state)
    (n : string) (v : Z) (env_id : string) (spec : EnvSpec.t) (l : loc)
    (defaults : dict pyobj) :
  parse_env_id id = Ok (n, v) ->
  get_env_id n (Some v) = Ok env_id ->
  dict_get (_REGISTRY s) env_id = Some spec ->
  EnvSpec.kwargs spec = PyRef l ->
  heap s !! l = Some defaults ->
  (forall e, load Environment import_attr (EnvSpec.entry_point spec) = Raise e ->
     fst (make Environment import_attr id args kwargs s) = Raise e) /\
  (forall env_fn,
     load Environment import_attr (EnvSpec.entry_point spec) = Ok env_fn ->
     fst (make Environment import_attr id args kwargs s)
     = env_fn args (dict_update defaults kwargs)).
Proof.
  intros Hp [-> _]%get_env_id_Ok Hg Hk Hl.
  rewrite (make_result _ _ _ _ _ _ _ _ _ _ _ Hp Hg Hk Hl). unfold instantiate.
  split; [intros e ->|intros env_fn ->]; done.
Qed.

Lemma X8_make_result_witness :
  let s := State [("cartpole-v0"%string,
                   EnvSpec.Build "cartpole-v0" "envs" (PyRef 0%nat) "cartpole" 0)]
             example_heap in
  parse_env_id "cartpole" = Ok ("cartpole"%string, 0) /\
  fst (make _ example_import "cartpole" [] [] s)
  = Raise (ValueError "not enough values to unpack (expected 2, got 1)").
Proof.
  intros s. split; [by vm_compute|].
  apply (proj1 (X8_make_result _ example_import "cartpole" [] [] s "cartpole" 0
                  "cartpole-v0"
                  (EnvSpec.Build "cartpole-v0" "envs" (PyRef 0%nat) "cartpole" 0)
                  0%nat [("size"%string, PyInt 4)]
                  ltac:(by vm_compute) ltac:(by vm_compute)
                  eq_refl eq_refl eq_refl)).
  reflexivity.
Defined.

(** X9: [register] takes any object as [kwargs]; when it is not a
    dictionary, registration succeeds all the same and every later [make]
    of the identifier raises the [AttributeError] of the missing [copy],
    leaving the state as it is. *)
Theorem X9_kwargs_not_a_dict (Environment : Type)
    (import_attr : string -> string -> result (constructor Environment))
    (id entry_point : string) (o : pyobj) (s s1 : state) :
  (forall l, o <> PyRef l) ->
  register id entry_point [("kwargs"%string, o)] s = (Ok tt, s1) ->
  forall args kwargs,
    make Environment import_attr id args kwargs s1
    = (Raise (AttributeError
                ("'" +:+ type_name o +:+ "' object has no attribute 'copy'")), s1).
Proof.
  intros Ho (n & v & o' & Hp & Hst & Hg)%register_stores args kwargs.
  simpl in Hst. destruct Hst as [-> _].
  rewrite (make_found _ _ _ _ _ _ _ _ _ Hp Hg). unfold construct. simpl.
  destruct o as [| | |l]; try done. by destruct (Ho l).
Qed.

Lemma X9_kwargs_not_a_dict_witness :
  (forall l, PyInt 5 <> PyRef l) /\
  exists s1,
    register "cartpole-v0" "envs:CartPole" [("kwargs"%string, PyInt 5)] initial_state
    = (Ok tt, s1) /\
    make _ example_import "cartpole-v0" [] [] s1
    = (Raise (AttributeError "'int' object has no attribute 'copy'"), s1).
Proof.
  split; [discriminate|].
  exists (snd (register "cartpole-v0" "envs:CartPole" [("kwargs"%string, PyInt 5)]
                 initial_state)).
  split; [by vm_compute|].
  apply (X9_kwargs_not_a_dict _ example_import "cartpole-v0" "envs:CartPole"
           (PyInt 5) initial_state); [discriminate|by vm_compute].
Defined.

(** X10: the record keeps the dictionary passed as [kwargs] itself, not a
    copy: when the caller changes the items of that dictionary after
    registering, [make] starts from the changed items. *)
Theorem X10_kwargs_shared (Environment : Type)
    (import_attr : string -> string -> result (constructor Environment))
    (id entry_point : string) (l : loc) (s s1 : state) :
  register id entry_point [("kwargs"%string, PyRef l)] s = (Ok tt, s1) ->
  forall changed args kwargs,
    fst (make Environment import_attr id args kwargs
           (State (_REGISTRY s1) (<[l := changed]> (heap s1))))
    = instantiate Environment import_attr entry_point args
        (dict_update changed kwargs).
Proof.
  intros (n & v & o' & Hp & Hst & Hg)%register_stores changed args kwargs.
  simpl in Hst. destruct Hst as [-> _].
  by rewrite (make_result _ _ _ _ _ (State (_REGISTRY s1) (<[l := changed]> (heap s1)))
                _ _ _ l changed Hp Hg eq_refl (lookup_insert_eq _ _ _)).
Qed.

Lemma X10_kwargs_shared_witness :
  exists s1,
    register "cartpole-v0" "envs:CartPole" [("kwargs"%string, PyRef 0%nat)]
      (State [] example_heap) = (Ok tt, s1) /\
    fst (make _ example_import "cartpole-v0" [] [] s1)
    = Ok ([], [("size"%string, PyInt 4)]) /\
    fst (make _ example_import "cartpole-v0" [] []
           (State (_REGISTRY s1) (<[0%nat := [("size"%string, PyInt 9)]]> (heap s1))))
    = Ok ([], [("size"%string, PyInt 9)]).
Proof.
  exists (snd (register "cartpole-v0" "envs:CartPole" [("kwargs"%string, PyRef 0%nat)]
                 (State [] example_heap))).
  split; [by vm_compute|]. split; [by vm_compute|].
  rewrite (X10_kwargs_shared _ example_import "cartpole-v0" "envs:CartPole" 0%nat
             (State [] example_heap) _ ltac:(by vm_compute)).
  by vm_compute.
Defined.

(** X11: an environment registered without [kwargs] gets a new, empty
    dictionary of its own, so [make] calls its constructor with exactly the
    positional arguments and keywords of the call. *)
Theorem X11_register_then_make (Environment : Type)
    (import_attr : string -> string -> result (constructor Environment))
    (id entry_point : string) (s s1 : state)
    (args : list pyobj) (kwargs : dict pyobj) :
  register id entry_point [] s = (Ok tt, s1) ->
  NoDup (dict_keys kwargs) ->
  fst (make Environment import_attr id args kwargs s1)
  = instantiate Environment import_attr entry_point args kwargs.
Proof.
  intros (n & v & o' & Hp & Hst & Hg)%register_stores Hnd.
  simpl in Hst. destruct Hst as (l & -> & _ & Hh).
  assert (Hl : heap s1 !! l = Some []) by (rewrite Hh; apply lookup_insert_eq).
  rewrite (make_result _ _ _ _ _ _ _ _ _ _ _ Hp Hg eq_refl Hl). simpl.
  by rewrite dict_update_app.
Qed.

Lemma X11_register_then_make_witness :
  exists s1,
    register "cartpole" "envs:CartPole" [] initial_state = (Ok tt, s1) /\
    NoDup (dict_keys [("size"%string, PyInt 8)]) /\
    fst (make _ example_import "cartpole" [PyInt 1] [("size"%string, PyInt 8)] s1)
    = Ok ([PyInt 1], [("size"%string, PyInt 8)]).
Proof.
  exists (snd (register "cartpole" "envs:CartPole" [] initial_state)).
  split; [by vm_compute|]. split; [apply NoDup_singleton|].
  rewrite (X11_register_then_make _ example_import "cartpole" "envs:CartPole"
             initial_state (snd (register "cartpole" "envs:CartPole" [] initial_state))
             [PyInt 1] [("size"%string, PyInt 8)]
             ltac:(by vm_compute) ltac:(apply NoDup_singleton)).
  by vm_compute.
Defined.

(** X12: [register] succeeds exactly when the identifier parses, there is
    no keyword but [kwargs], the canonical identifier is not a key of the
    registry, and the version is 0 or some record has the name; the entry
    point plays no part, it is looked at by [make] only. *)
Theorem X12_register_succeeds_iff (id entry_point : string) (kwargs : dict pyobj)
    (s : state) :
  (exists s', register id entry_point kwargs s = (Ok tt, s')) <->
  (exists n v env_id,
     parse_env_id id = Ok (n, v) /\
     get_env_id n (Some v) = Ok env_id /\
     accepted kwargs = true /\
     dict_contains (_REGISTRY s) env_id = false /\
     (v = 0 \/ ~ unnamed (_REGISTRY s) n)).
Proof.
  split.
  - intros [s' Hr].
    destruct (register_after id entry_point kwargs s) as (s1 & _ & _ & Hf).
    rewrite Hr in Hf. simpl in Hf.
    destruct Hf as (n & v & o & Hp & Hk & Hc & Hu & _).
    exists n, v, (env_key n v). split; [done|].
    split; [by apply (parse_env_id_canonical id)|]. do 2 (split; [done|]).
    destruct (decide (unnamed (_REGISTRY s) n)); [left; auto|by right].
  - intros (n & v & env_id & Hp & [-> _]%get_env_id_Ok & Hk & Hc & Hv).
    destruct (register_run _ entry_point _ s _ _ Hp Hk) as (o & h' & _ & Hrun).
    rewrite Hrun. cbv zeta. rewrite Hc.
    destruct Hv as [->|Hu].
    + rewrite andb_false_r. by eexists.
    + rewrite bool_decide_eq_false_2 by done. by eexists.
Qed.

Lemma X12_register_succeeds_iff_witness :
  let s := snd (register "a-v0" "anything" [] initial_state) in
  (exists s', register "a-v3" "no colon here" [] s = (Ok tt, s')) /\
  ~ (exists s', register "b-v3" "envs:CartPole" [] s = (Ok tt, s')).
Proof.
  intros s. split.
  - apply (proj2 (X12_register_succeeds_iff "a-v3" "no colon here" [] s)).
    exists "a"%string, 3, "a-v3"%string. split; [by vm_compute|].
    split; [by vm_compute|]. split; [reflexivity|].
    split; [by vm_compute|]. right. by apply (unnamed_snoc []).
  - intros (n & v & env_id & Hp & _ & _ & _ & Hv)%(proj1
             (X12_register_succeeds_iff _ _ _ _)).
    assert (n = "b"%string /\ v = 3) as [-> ->]
      by (vm_compute in Hp; by injection Hp as <- <-).
    destruct Hv as [?|Hu]; [done|]. apply Hu.
    apply Forall_singleton. by vm_compute.
Defined.

Lemma X7_make_preserves_witness :
  let s := snd (register "cartpole-v0" "envs:CartPole" [("kwargs"%string, PyRef 0%nat)]
                  (State [] example_heap)) in
  let s' := snd (make _ example_import "cartpole-v0" [] [("size"%string, PyInt 8)] s) in
  heap s !! 0%nat = Some [("size"%string, PyInt 4)] /\
  _REGISTRY s' = _REGISTRY s /\
  heap s' !! 0%nat = Some [("size"%string, PyInt 4)].
Proof.
  intros s s'. split; [by vm_compute|].
  destruct (X7_make_preserves _ example_import "cartpole-v0" []
              [("size"%string, PyInt 8)] s) as [Hr Hh].
  split; [exact Hr|]. apply Hh. by vm_compute.
Defined.

Lemma after_grows (Environment : Type)
    (import_attr : string -> string -> result (constructor Environment))
    (c : call) (s : state) :
  exists added,
    _REGISTRY (after Environment import_attr c s) = _REGISTRY s ++ added /\
    dict_keys added = registered_by c s /\
    heap s ⊆ heap (after Environment import_attr c s).
Proof.
  destruct c as [id entry_point kwargs|id args kwargs|]; simpl.
  - destruct (register_after id entry_point kwargs s) as (s1 & Hs1 & Hh & Hf).
    rewrite Hs1. simpl. destruct (fst _).
    + destruct Hf as (n & v & o & Hp & _ & _ & _ & _ & ->).
      rewrite (canonical_parse _ _ _ Hp). by eexists.
    + exists []. by rewrite app_nil_r.
  - destruct (make_extends Environment import_attr id args kwargs s) as [-> Hh].
    exists []. by rewrite app_nil_r.
  - exists []. by rewrite app_nil_r.
Qed.

(** X13: no run of calls removes, replaces or reorders a record: the
    registry afterwards is the registry before followed by the records of
    the calls of [register] that succeeded, in their order, and every
    dictionary object that was there has the items it had. *)
Theorem X13_registry_only_grows (Environment : Type)
    (import_attr : string -> string -> result (constructor Environment))
    (cs : list call) (s : state) :
  exists added,
    _REGISTRY (after_all Environment import_attr cs s) = _REGISTRY s ++ added /\
    dict_keys added = registered_by_all Environment import_attr cs s /\
    heap s ⊆ heap (after_all Environment import_attr cs s).
Proof.
  revert s. induction cs as [|c cs IH]; intros s; simpl.
  - exists []. by rewrite app_nil_r.
  - destruct (after_grows Environment import_attr c s) as (a1 & Hr1 & Hk1 & Hh1).
    destruct (IH (after Environment import_attr c s)) as (a2 & Hr2 & Hk2 & Hh2).
    exists (a1 ++ a2). rewrite Hr2, Hr1, app_assoc. split; [done|].
    split; [by rewrite dict_keys_app, Hk1, Hk2|by etrans].
Qed.

Lemma keyed_step (registry : dict EnvSpec.t) (n : string) (v : Z)
    (entry_point : string) (o : pyobj) :
  keyed_by_name_and_version registry ->
  n <> EmptyString -> legal n = true -> 0 <= v ->
  (digit_count v <= int_max_str_digits)%nat ->
  keyed_by_name_and_version
    (registry ++ [(env_key n v,
                   EnvSpec.Build (env_key n v) entry_point o n v)]).
Proof.
  intros Hk Hn Hl Hv Hc. apply Forall_app. split; [done|].
  apply Forall_singleton. simpl. split; [by apply get_env_id_within|done].
Qed.

(** X14: after any run of calls from an empty registry, every record is
    stored under the identifier printed from its own name and version,
    which is also its [id] and parses back to that name and version; the
    name is not empty and the version not negative. *)
Theorem X14_keys_are_canonical (Environment : Type)
    (import_attr : string -> string -> result (constructor Environment))
    (cs : list call) (h : gmap loc (dict pyobj)) (k : string) (spec : EnvSpec.t) :
  (k, spec) ∈ _REGISTRY (after_all Environment import_attr cs (State [] h)) ->
  get_env_id (EnvSpec.name spec) (Some (EnvSpec.version spec)) = Ok k /\
  EnvSpec.id spec = k /\
  parse_env_id k = Ok (EnvSpec.name spec, EnvSpec.version spec) /\
  canonical k = Some k /\
  EnvSpec.name spec <> EmptyString /\ 0 <= EnvSpec.version spec.
Proof.
  intros Hin.
  assert (Hkeyed : keyed_by_name_and_version
                     (_REGISTRY (after_all Environment import_attr cs (State [] h)))).
  { apply after_all_invariant; [|apply Forall_nil_2].
    intros registry n v entry_point o HP Hn Hl Hv Hc _ _. by apply keyed_step. }
  assert (Hok : registry_ok
                  (_REGISTRY (after_all Environment import_attr cs (State [] h))))
    by apply after_all_ok, registry_ok_nil.
  destruct Hok as [_ Hrec].
  apply (proj1 (Forall_forall _ _) Hkeyed) in Hin as Hk.
  apply (proj1 (Forall_forall _ _) Hrec) in Hin as Hr.
  simpl in Hk, Hr. destruct Hk as (Hk & Hn & Hl & Hv). destruct Hr as [Hid Hp].
  do 3 (split; [done|]). split; [|done].
  unfold canonical. by rewrite Hp, Hk.
Qed.

Lemma starts_at_zero_step (registry : dict EnvSpec.t) (n : string) (v : Z)
    (entry_point : string) (o : pyobj) :
  starts_at_zero registry ->
  (unnamed registry n -> v = 0) ->
  starts_at_zero
    (registry ++ [(env_key n v,
                   EnvSpec.Build (env_key n v) entry_point o n v)]).
Proof.
  intros Hz Hu. unfold starts_at_zero.
  assert (Hold : forall k, dict_contains registry k = true ->
                   dict_contains
                     (registry ++ [(env_key n v,
                        EnvSpec.Build (env_key n v) entry_point o n v)]) k
                   = true).
  { intros k Hk%dict_contains_keys. apply dict_contains_keys.
    rewrite dict_keys_app. apply elem_of_app. by left. }
  apply Forall_app. split.
  - apply (Forall_impl _ _ _ Hz). intros kv Hkv. by apply Hold.
  - apply Forall_singleton. simpl.
    destruct (decide (unnamed registry n)) as [Hun|Hun].
    + rewrite (Hu Hun). apply dict_contains_keys.
      rewrite dict_keys_app. apply elem_of_app. right. by left.
    + apply Hold. apply not_Forall_Exists in Hun; [|apply _].
      apply Exists_exists in Hun as (kv & Hin & Hname). simpl in Hname.
      apply dec_stable in Hname. subst n.
      by apply (proj1 (Forall_forall _ _) Hz) in Hin.
Qed.

(** X15: after any run of calls from an empty registry, every name that
    has a record has its version 0 registered: the first registration of a
    name is version 0 and nothing is ever removed. *)
Theorem X15_version_zero_registered (Environment : Type)
    (import_attr : string -> string -> result (constructor Environment))
    (cs : list call) (h : gmap loc (dict pyobj)) (k : string) (spec : EnvSpec.t) :
  (k, spec) ∈ _REGISTRY (after_all Environment import_attr cs (State [] h)) ->
  dict_contains (_REGISTRY (after_all Environment import_attr cs (State [] h)))
    (EnvSpec.name spec +:+ "-v0") = true.
Proof.
  intros Hin.
  assert (Hz : starts_at_zero
                 (_REGISTRY (after_all Environment import_attr cs (State [] h)))).
  { apply after_all_invariant; [|apply Forall_nil_2].
    intros registry n v entry_point o HP _ _ _ _ _ Hu. by apply starts_at_zero_step. }
  by apply (proj1 (Forall_forall _ _) Hz) in Hin.
Qed.

Lemma X14_keys_are_canonical_witness :
  let registry :=
    _REGISTRY (after_all _ example_import
                 [CallRegister "a" "envs:CartPole" [];
                  CallRegister "a-v003" "envs:CartPole" []]
                 (State [] ∅)) in
  exists spec,
    ("a-v3"%string, spec) ∈ registry /\
    EnvSpec.id spec = "a-v3"%string /\
    parse_env_id "a-v3" = Ok (EnvSpec.name spec, EnvSpec.version spec).
Proof.
  intros registry.
  assert (Hin : exists spec, ("a-v3"%string, spec) ∈ registry)
    by (vm_compute; eexists; right; left).
  destruct Hin as [spec Hin]. exists spec. split; [exact Hin|].
  destruct (X14_keys_are_canonical _ example_import _ ∅ "a-v3" spec Hin)
    as (_ & Hid & Hp & _).
  by split.
Defined.

Lemma X15_version_zero_registered_witness :
  let registry :=
    _REGISTRY (after_all _ example_import
                 [CallRegister "a" "envs:CartPole" [];
                  CallRegister "a-v3" "envs:CartPole" []]
                 (State [] ∅)) in
  exists spec,
    ("a-v3"%string, spec) ∈ registry /\
    dict_contains registry (EnvSpec.name spec +:+ "-v0") = true.
Proof.
  intros registry.
  assert (Hin : exists spec, ("a-v3"%string, spec) ∈ registry)
    by (vm_compute; eexists; right; left).
  destruct Hin as [spec Hin]. exists spec. split; [exact Hin|].
  exact (X15_version_zero_registered _ example_import _ ∅ "a-v3" spec Hin).
Defined.

(** X17: building an [EnvSpec] binds no keyword but [id], [entry_point]
    and [kwargs] ([name] and [version] are refused with a [TypeError]),
    checks the [id] with [parse_env_id] and raises its [ValueError], and
    otherwise keeps the [id] as it was written, with the name and version
    parsed from it. *)
Theorem X17_EnvSpec_construction (id entry_point : string) (kwargs : dict pyobj)
    (s : state) :
  (accepted kwargs = false ->
   exists msg, EnvSpec_call id entry_point kwargs s = (Raise (TypeError msg), s)) /\
  (accepted kwargs = true ->
   forall e, parse_env_id id = Raise e ->
     exists s', EnvSpec_call id entry_point kwargs s = (Raise e, s') /\
                extends s s') /\
  (accepted kwargs = true ->
   forall n v, parse_env_id id = Ok (n, v) ->
     exists o s',
       EnvSpec_call id entry_point kwargs s
       = (Ok (EnvSpec.Build id entry_point o n v), s') /\
       extends s s' /\
       stored_kwargs (dict_get kwargs "kwargs") s o (heap s')).
Proof.
  split; [apply EnvSpec_call_rejected|]. split; intros Hk.
  - intros e Hp. rewrite EnvSpec_call_accepted by done. unfold EnvSpec_init.
    destruct (dict_get kwargs "kwargs") as [o|].
    + exists s. split; [|apply extends_refl].
      rewrite bind_run. unfold ret at 1. rewrite bind_run. unfold lift.
      by rewrite Hp.
    + eexists. split; [|apply (extends_alloc s [])].
      rewrite !bind_run. unfold alloc at 1. unfold ret at 1.
      rewrite bind_run. unfold lift. by rewrite Hp.
  - intros n v Hp. rewrite EnvSpec_call_accepted by done.
    destruct (EnvSpec_init_run id entry_point (dict_get kwargs "kwargs") s n v Hp)
      as (o & h' & Hst & ->).
    exists o, (State (_REGISTRY s) h'). split; [done|]. split; [|done].
    split; [done|]. by apply stored_kwargs_extends in Hst.
Qed.

Lemma X17_EnvSpec_construction_witness :
  (exists msg,
     EnvSpec_call "foo" "envs:CartPole" [("version"%string, PyInt 2)] initial_state
     = (Raise (TypeError msg), initial_state)) /\
  (exists o s',
     EnvSpec_call "foo" "envs:CartPole" [] initial_state
     = (Ok (EnvSpec.Build "foo" "envs:CartPole" o "foo" 0), s')).
Proof.
  split.
  - by apply (proj1 (X17_EnvSpec_construction "foo" "envs:CartPole"
                       [("version"%string, PyInt 2)] initial_state)).
  - destruct (proj2 (proj2 (X17_EnvSpec_construction "foo" "envs:CartPole" []
                              initial_state)) eq_refl "foo"%string 0
                ltac:(by vm_compute)) as (o & s' & Hc & _).
    by exists o, s'.
Defined.
